(** * Raikoke figure scripts: the numerical core of Figures 3, 4, 7 and 8

    The scripts load gridded fields and reduce them with three pieces of
    array arithmetic: the cosine-latitude weighted average over 30N-90N
    ([np.ma.average] of [np.ma.masked_invalid]), the observation mask
    ([mask[np.isnan(obs)] = np.nan] followed by [model * mask]) and the
    e-folding estimator of [Figure3.py].

    Numbers.  A binary64 value is modelled by [float64]: a NaN, one of the two
    infinities, or a finite value carried as the real number it denotes.
    Arithmetic on finite values is the exact real arithmetic (rounding,
    overflow and the sign of zero are not modelled); the special values
    follow IEEE 754 as numpy applies it. *)

From Stdlib Require Import Reals Lra Lia List Arith ZArith Bool.
Import ListNotations.

Local Open Scope R_scope.

(** ** Binary64 values *)

Inductive float64 : Type :=
| NaN
| PInf
| NInf
| Fin (r : R).

(** [np.isnan] and [np.isfinite] on one value. *)
Definition isnan (x : float64) : bool :=
  match x with NaN => true | _ => false end.

Definition isfinite (x : float64) : bool :=
  match x with Fin _ => true | _ => false end.

Definition Rltb (a b : R) : bool := if Rlt_dec a b then true else false.
Definition Reqb (a b : R) : bool := if Req_dec_T a b then true else false.

(** The sign of a product with an infinity: [inf * 0] is NaN. *)
Definition inf_times (positive : bool) (a : R) : float64 :=
  if Rltb 0 a then (if positive then PInf else NInf)
  else if Rltb a 0 then (if positive then NInf else PInf)
  else NaN.

Definition fadd (x y : float64) : float64 :=
  match x, y with
  | NaN, _ | _, NaN => NaN
  | PInf, NInf | NInf, PInf => NaN
  | PInf, _ | _, PInf => PInf
  | NInf, _ | _, NInf => NInf
  | Fin a, Fin b => Fin (a + b)
  end.

Definition fneg (x : float64) : float64 :=
  match x with
  | NaN => NaN
  | PInf => NInf
  | NInf => PInf
  | Fin a => Fin (- a)
  end.

Definition fsub (x y : float64) : float64 :=
  match x, y with
  | Fin a, Fin b => Fin (a - b)
  | _, _ => fadd x (fneg y)
  end.

Definition fabs (x : float64) : float64 :=
  match x with
  | NaN => NaN
  | PInf | NInf => PInf
  | Fin a => Fin (Rabs a)
  end.

Definition fmul (x y : float64) : float64 :=
  match x, y with
  | NaN, _ | _, NaN => NaN
  | PInf, PInf | NInf, NInf => PInf
  | PInf, NInf | NInf, PInf => NInf
  | PInf, Fin a | Fin a, PInf => inf_times true a
  | NInf, Fin a | Fin a, NInf => inf_times false a
  | Fin a, Fin b => Fin (a * b)
  end.

Definition fdiv (x y : float64) : float64 :=
  match x, y with
  | NaN, _ | _, NaN => NaN
  | (PInf | NInf), (PInf | NInf) => NaN
  | Fin _, (PInf | NInf) => Fin 0
  | PInf, Fin b => if Rltb b 0 then NInf else PInf
  | NInf, Fin b => if Rltb b 0 then PInf else NInf
  | Fin a, Fin b =>
      if Reqb b 0 then inf_times true a else Fin (a / b)
  end.

(** [x < y] as IEEE orders the values: false as soon as one side is NaN. *)
Definition fltb (x y : float64) : bool :=
  match x, y with
  | NaN, _ | _, NaN => false
  | _, NInf => false
  | NInf, _ => true
  | PInf, _ => false
  | _, PInf => true
  | Fin a, Fin b => Rltb a b
  end.

(** ** Python exceptions and results *)

Inductive exn : Type :=
| ValueError
| IndexError.

Inductive result (A : Type) : Type :=
| Ok (a : A)
| Raise (e : exn).

Arguments Ok {A} a.
Arguments Raise {A} e.

Definition rbind {A B : Type} (r : result A) (k : A -> result B) : result B :=
  match r with
  | Ok a => k a
  | Raise e => Raise e
  end.

(** ** numpy reductions on one-dimensional data *)

(** [x >= y] of C doubles: false as soon as one side is NaN. *)
Definition fgeb (x y : float64) : bool :=
  negb (isnan x) && negb (isnan y) && negb (fltb x y).

(** The scan of numpy's [DOUBLE_argmin]: [mp] is the running minimum found at
    [min_ind]; a NaN ends the scan and is minimal; [!(x >= mp)] moves the
    minimum, so among equal values the first one is kept. *)
Fixpoint argmin_scan (l : list float64) (i : nat) (mp : float64) (min_ind : nat) : nat :=
  match l with
  | [] => min_ind
  | x :: l' =>
      if isnan mp then min_ind
      else if negb (fgeb x mp) then argmin_scan l' (S i) x i
      else argmin_scan l' (S i) mp min_ind
  end.

(** [a.argmin()]: an empty array raises ValueError. *)
Definition np_argmin (l : list float64) : result nat :=
  match l with
  | [] => Raise ValueError
  | x :: l' => Ok (argmin_scan l' 1 x 0)
  end.

(** [np.fmax]: the larger value, a NaN losing against a number. *)
Definition fmax (x y : float64) : float64 :=
  if isnan x then y
  else if isnan y then x
  else if fltb x y then y else x.

(** [np.nanmax] on an ndarray is [np.fmax.reduce]: ValueError on an empty
    array, NaN (with a warning) when every element is NaN. *)
Definition np_nanmax (l : list float64) : result float64 :=
  match l with
  | [] => Raise ValueError
  | x :: l' => Ok (fold_left fmax l' x)
  end.

(** [array - value] and [np.abs] build new arrays. *)
Definition np_subtract_scalar (l : list float64) (value : float64) : list float64 :=
  map (fun x => fsub x value) l.

Definition np_abs (l : list float64) : list float64 := map fabs l.

(** ** One-dimensional ndarrays in memory

    A buffer is allocated once and never moves; an ndarray is a view of a
    buffer (basic slicing returns a view that shares the buffer, [copy.copy]
    allocates a new one).  The heap is the list of the buffers allocated so
    far, a buffer being named by its position. *)

Definition buffer : Type := list float64.
Definition heap : Type := list buffer.

Record ndarray : Type := mk_ndarray { base : nat; offset : nat; size : nat }.

(** Computations that read and write the heap and may raise. *)
Definition M (A : Type) : Type := heap -> result A * heap.

Definition ret {A : Type} (a : A) : M A := fun h => (Ok a, h).

Definition bind {A B : Type} (m : M A) (k : A -> M B) : M B :=
  fun h =>
    match m h with
    | (Ok a, h') => k a h'
    | (Raise e, h') => (Raise e, h')
    end.

Definition lift {A : Type} (r : result A) : M A := fun h => (r, h).

Notation "x <- m ;; k" := (bind m (fun x => k))
  (at level 61, m at next level, right associativity).
Notation "m ;;; k" := (bind m (fun _ => k))
  (at level 61, right associativity).

(** The elements an ndarray shows. *)
Definition contents (h : heap) (a : ndarray) : list float64 :=
  firstn (size a) (skipn (offset a) (nth (base a) h [])).

(** The view lies inside an allocated buffer. *)
Definition valid (h : heap) (a : ndarray) : Prop :=
  (base a < length h)%nat /\
  (offset a + size a <= length (nth (base a) h []))%nat.

Definition read (a : ndarray) : M (list float64) :=
  fun h => (Ok (contents h a), h).

(** [a[k:]] for [0 <= k]: a view of the same buffer, the start clipped to the
    length. *)
Definition getslice_from (a : ndarray) (k : nat) : ndarray :=
  {| base := base a;
     offset := offset a + Nat.min k (size a);
     size := size a - k |}.

(** [copy.copy(a)] is [a.__copy__()]: a new buffer with the elements of [a]. *)
Definition copy_copy (a : ndarray) : M ndarray :=
  fun h =>
    (Ok {| base := length h; offset := 0; size := size a |},
     h ++ [contents h a]).

(** [np.isnan(a)]: a new boolean array. *)
Definition np_isnan (a : ndarray) : M (list bool) :=
  xs <- read a ;; ret (map isnan xs).

(** The elements of [l] with [v] written where the mask is set. *)
Fixpoint put_where (mask : list bool) (v : float64) (l : list float64) : list float64 :=
  match mask, l with
  | b :: mask', x :: l' => (if b then v else x) :: put_where mask' v l'
  | _, _ => l
  end.

Fixpoint update_nth {A : Type} (n : nat) (f : A -> A) (l : list A) : list A :=
  match n, l with
  | _, [] => []
  | O, x :: l' => f x :: l'
  | S n', x :: l' => x :: update_nth n' f l'
  end.

(** The buffer with the window [offset, offset + size) rewritten. *)
Definition write_window (a : ndarray) (f : list float64 -> list float64) (b : buffer) : buffer :=
  firstn (offset a) b
  ++ f (firstn (size a) (skipn (offset a) b))
  ++ skipn (offset a + size a) b.

(** [a[mask] = v] with a boolean index: writes through the view into its
    buffer; a mask of another length raises IndexError. *)
Definition setitem_bool (a : ndarray) (mask : list bool) (v : float64) : M unit :=
  fun h =>
    if (length mask =? size a)%nat
    then (Ok tt, update_nth (base a) (write_window a (put_where mask v)) h)
    else (Raise IndexError, h).

(** ** Figure3.py: the e-folding estimator *)

(** [math.e]. *)
Definition math_e : R := exp 1.

(** [find_nearest(array, value)]: [np.asarray] returns the ndarray itself. *)
Definition find_nearest (array : ndarray) (value : float64) : M nat :=
  xs <- read array ;;
  lift (np_argmin (np_abs (np_subtract_scalar xs value))).

(** [e_folding_time(data)].  The slice [data[20:]] is taken inside the
    function, before the copy. *)
Definition e_folding_time (data : ndarray) : M Z :=
  data_copy <- copy_copy (getslice_from data 20) ;;
  nans <- np_isnan data_copy ;;
  setitem_bool data_copy nans (Fin 0) ;;;
  xs <- read data_copy ;;
  vmax <- lift (np_nanmax xs) ;;
  x_max <- find_nearest data_copy vmax ;;
  xs' <- read data_copy ;;
  vmax' <- lift (np_nanmax xs') ;;
  k <- find_nearest (getslice_from data_copy x_max) (fdiv vmax' (Fin math_e)) ;;
  let x_e := (x_max + k)%nat in
  let e_time := (Z.of_nat x_e - Z.of_nat x_max)%Z in
  ret e_time.

(** The estimator run on a segment held as a plain list, with no slice taken:
    NaN replaced by zero, the first index of the maximum, then the nearest
    value to [max / e] from there on. *)
Definition nan_to_zero (seg : list float64) : list float64 :=
  put_where (map isnan seg) (Fin 0) seg.

Definition nearest_index (l : list float64) (value : float64) : result nat :=
  np_argmin (np_abs (np_subtract_scalar l value)).

Definition estimate_on_segment (seg : list float64) : result Z :=
  let c := nan_to_zero seg in
  rbind (np_nanmax c) (fun vmax =>
  rbind (nearest_index c vmax) (fun x_max =>
  rbind (nearest_index (skipn x_max c) (fdiv vmax (Fin math_e))) (fun k =>
  Ok (Z.of_nat (x_max + k) - Z.of_nat x_max)%Z))).

(** ** Slicing *)

(** One bound of a Python slice on an axis of length [n]: a negative bound
    counts from the end, and every bound is clipped to [0, n]. *)
Definition clip_index (n : nat) (i : Z) : nat :=
  let i' := if (i <? 0)%Z then (i + Z.of_nat n)%Z else i in
  if (i' <? 0)%Z then O else Nat.min (Z.to_nat i') n.

(** [slice(start, stop).indices(n)] for step 1; [None] is an omitted bound. *)
Definition slice_bounds (n : nat) (start stop : option Z) : nat * nat :=
  (match start with None => O | Some s => clip_index n s end,
   match stop with None => n | Some s => clip_index n s end).

(** [l[start:stop]] on one-dimensional data. *)
Definition getslice {A : Type} (start stop : option Z) (l : list A) : list A :=
  let (lo, hi) := slice_bounds (length l) start stop in
  firstn (hi - lo) (skipn lo l).

(** ** Two-dimensional fields

    A field is a shape and its cells; axis 0 is latitude, axis 1 is time. *)

Record ndarray2 : Type :=
  mk_ndarray2 { nrows : nat; ncols : nat; cell : nat -> nat -> float64 }.

Record boolarray2 : Type :=
  mk_boolarray2 { b_nrows : nat; b_ncols : nat; b_cell : nat -> nat -> bool }.

(** [a[start:stop, :]]. *)
Definition getrows (start stop : option Z) (a : ndarray2) : ndarray2 :=
  let (lo, hi) := slice_bounds (nrows a) start stop in
  {| nrows := hi - lo; ncols := ncols a; cell := fun i j => cell a (lo + i) j |}.

(** [np.ones((r, c))]. *)
Definition np_ones (r c : nat) : ndarray2 :=
  {| nrows := r; ncols := c; cell := fun _ _ => Fin 1 |}.

(** [np.isnan(a)] on a field. *)
Definition np_isnan2 (a : ndarray2) : boolarray2 :=
  {| b_nrows := nrows a; b_ncols := ncols a; b_cell := fun i j => isnan (cell a i j) |}.

(** [a[index] = v] with a two-dimensional boolean index: the index must have
    the shape of [a], else IndexError. *)
Definition setitem_bool2 (a : ndarray2) (index : boolarray2) (v : float64) : result ndarray2 :=
  if ((b_nrows index =? nrows a) && (b_ncols index =? ncols a))%nat
  then Ok {| nrows := nrows a; ncols := ncols a;
             cell := fun i j => if b_cell index i j then v else cell a i j |}
  else Raise IndexError.

(** Broadcasting of one axis: equal lengths, or one of them 1. *)
Definition broadcast_dim (n m : nat) : option nat :=
  if (n =? m)%nat then Some n
  else if (n =? 1)%nat then Some m
  else if (m =? 1)%nat then Some n
  else None.

(** The index read on an axis of length [n] for the output index [i]. *)
Definition broadcast_index (n i : nat) : nat := if (n =? 1)%nat then O else i.

(** [a * b] on two fields, with numpy's broadcasting; shapes that do not
    broadcast raise ValueError. *)
Definition np_multiply2 (a b : ndarray2) : result ndarray2 :=
  match broadcast_dim (nrows a) (nrows b), broadcast_dim (ncols a) (ncols b) with
  | Some r, Some c =>
      Ok {| nrows := r; ncols := c;
            cell := fun i j =>
              fmul (cell a (broadcast_index (nrows a) i) (broadcast_index (ncols a) j))
                   (cell b (broadcast_index (nrows b) i) (broadcast_index (ncols b) j)) |}
  | _, _ => Raise ValueError
  end.

(** ** Masked arrays *)

Inductive mcell : Type :=
| Masked
| Unmasked (x : float64).

Record marray2 : Type :=
  mk_marray2 { m_nrows : nat; m_ncols : nat; m_cell : nat -> nat -> mcell }.

Definition is_masked (c : mcell) : bool :=
  match c with Masked => true | Unmasked _ => false end.

(** [np.ma.masked_invalid(a)]: NaN and both infinities are masked. *)
Definition masked_invalid (a : ndarray2) : marray2 :=
  {| m_nrows := nrows a; m_ncols := ncols a;
     m_cell := fun i j => if isfinite (cell a i j) then Unmasked (cell a i j) else Masked |}.

Fixpoint zip_with {A B C : Type} (f : A -> B -> C) (l : list A) (l' : list B) : list C :=
  match l, l' with
  | x :: t, y :: t' => f x y :: zip_with f t t'
  | _, _ => []
  end.

(** [filled(0)] of one cell. *)
Definition filled0 (c : mcell) : float64 :=
  match c with Masked => Fin 0 | Unmasked x => x end.

(** [MaskedArray.sum] along the axis: masked when every entry is masked
    (also on an empty axis), else the sum of the entries with zero written
    under the mask. *)
Definition ma_sum (col : list mcell) : mcell :=
  if forallb is_masked col then Masked
  else Unmasked (fold_right fadd (Fin 0) (map filled0 col)).

Definition ma_multiply (x y : mcell) : mcell :=
  match x, y with
  | Unmasked a, Unmasked b => Unmasked (fmul a b)
  | _, _ => Masked
  end.

(** Division of masked values: the quotient is masked where an operand is
    masked or the quotient is not finite (a zero divisor). *)
Definition ma_true_divide (x y : mcell) : mcell :=
  match x, y with
  | Unmasked a, Unmasked b =>
      if isfinite (fdiv a b) then Unmasked (fdiv a b) else Masked
  | _, _ => Masked
  end.

(** [wgt = wgt * (~a.mask); wgt.mask |= a.mask] on one entry. *)
Definition weight_cell (c : mcell) (w : float64) : mcell :=
  match c with Masked => Masked | Unmasked _ => Unmasked w end.

(** One output entry of [np.ma.average(a, axis=0, weights=w)]. *)
Definition average_column (col : list mcell) (weights : list float64) : mcell :=
  let wgt := zip_with weight_cell col weights in
  let scl := ma_sum wgt in
  ma_true_divide (ma_sum (zip_with ma_multiply col wgt)) scl.

Definition column (a : marray2) (j : nat) : list mcell :=
  map (fun i => m_cell a i j) (seq 0 (m_nrows a)).

(** [np.ma.average(a, axis=0, weights=w)] with one-dimensional weights:
    their length must be the length of axis 0, else ValueError. *)
Definition ma_average (a : marray2) (weights : list float64) : result (list mcell) :=
  if (length weights =? m_nrows a)%nat
  then Ok (map (fun j => average_column (column a j) weights) (seq 0 (m_ncols a)))
  else Raise ValueError.

(** ** The latitude-weighted average of Figures 3, 5, 7 and 8 *)

(** [range(a, b)]. *)
Definition range (a b : Z) : list Z :=
  map (fun k => (a + Z.of_nat k)%Z) (seq 0 (Z.to_nat (b - a))).

Definition latitude : list Z := range (-90) 91.

(** [np.deg2rad]. *)
Definition np_deg2rad (x : R) : R := x * (PI / 180).

Section Weighting.

(** numpy's cosine on binary64 values.  Every theorem below holds for any
    such function; [cos] itself is the exact instance. *)
Variable np_cos : R -> R.

(** [weighting = np.cos(np.deg2rad(latitude))]. *)
Definition weighting : list float64 :=
  map (fun lat => Fin (np_cos (np_deg2rad (IZR lat)))) latitude.

(** The average over the latitude band [start:stop]:
    [np.ma.average(np.ma.masked_invalid(F[start:stop, :]), axis = 0,
                   weights = weighting[start:stop])]. *)
Definition area_average_band (start stop : option Z) (F : ndarray2) : result (list mcell) :=
  ma_average (masked_invalid (getrows start stop F)) (getslice start stop weighting).

(** The scripts take the band [120:], 30N to 90N. *)
Definition omps_area_average (omps_lon_averaged : ndarray2) : result (list mcell) :=
  area_average_band (Some 120%Z) None omps_lon_averaged.

End Weighting.

(** ** Figure4.py: the observation mask *)

Module Figure4.

(** [mask = np.ones((181, 366)); mask[np.isnan(omps)] = np.nan]. *)
Definition mask (omps : ndarray2) : result ndarray2 :=
  setitem_bool2 (np_ones 181 366) (np_isnan2 omps) NaN.

(** [so2_ash_omps_limits = so2_ash_omps * mask]. *)
Definition so2_ash_omps_limits (so2_ash_omps omps : ndarray2) : result ndarray2 :=
  rbind (mask omps) (fun mask => np_multiply2 so2_ash_omps mask).

End Figure4.

(** ** Figure8.py: the masked fields of the Angstrom exponent *)

Module Figure8.

(** The six arrays the script loads. *)
Record loaded : Type :=
  { so2_ash_550 : ndarray2;
    so2_ash_865 : ndarray2;
    so2_only_550 : ndarray2;
    so2_only_865 : ndarray2;
    omps_510 : ndarray2;
    omps_869 : ndarray2 }.

Definition mask510 (d : loaded) : result ndarray2 :=
  setitem_bool2 (np_ones 181 366) (np_isnan2 (omps_510 d)) NaN.

Definition mask869 (d : loaded) : result ndarray2 :=
  setitem_bool2 (np_ones 181 366) (np_isnan2 (omps_869 d)) NaN.

Definition so2_ash_550_masked (d : loaded) : result ndarray2 :=
  rbind (mask510 d) (np_multiply2 (so2_ash_550 d)).

Definition so2_ash_865_masked (d : loaded) : result ndarray2 :=
  rbind (mask869 d) (np_multiply2 (so2_ash_865 d)).

Definition so2_only_550_masked (d : loaded) : result ndarray2 :=
  rbind (mask510 d) (np_multiply2 (so2_only_550 d)).

(** The script multiplies the 865 nm SO2only field by [mask510]. *)
Definition so2_only_865_masked (d : loaded) : result ndarray2 :=
  rbind (mask510 d) (np_multiply2 (so2_only_865 d)).

(** The rows of the band [120:] that enter the average at output index [j]:
    the unmasked entries of [np.ma.masked_invalid(F[120:, :])]. *)
Definition support (F : ndarray2) (j : nat) : list nat :=
  let a := masked_invalid (getrows (Some 120%Z) None F) in
  filter (fun i => negb (is_masked (m_cell a i j))) (seq 0 (m_nrows a)).

Section Means.
Variable np_cos : R -> R.

Definition so2_ash_865_mean (d : loaded) : result (list mcell) :=
  rbind (so2_ash_865_masked d) (omps_area_average np_cos).

Definition so2_only_865_mean (d : loaded) : result (list mcell) :=
  rbind (so2_only_865_masked d) (omps_area_average np_cos).
End Means.

End Figure8.

(** ** Figure7.py: the mask of the combined dataset *)

(** [a[:, start:stop]]. *)
Definition getcols (start stop : option Z) (a : ndarray2) : ndarray2 :=
  let (lo, hi) := slice_bounds (ncols a) start stop in
  {| nrows := nrows a; ncols := hi - lo; cell := fun i j => cell a i (lo + j) |}.

(** [np.zeros((r, c))]. *)
Definition np_zeros (r c : nat) : ndarray2 :=
  {| nrows := r; ncols := c; cell := fun _ _ => Fin 0 |}.

(** [a[:] = x] with a scalar [x]. *)
Definition setitem_all (a : ndarray2) (x : float64) : ndarray2 :=
  {| nrows := nrows a; ncols := ncols a; cell := fun _ _ => x |}.

(** An axis of length [n] broadcasts into an axis of length [m]. *)
Definition broadcasts_into (n m : nat) : bool := ((n =? m) || (n =? 1))%nat.

(** [a[:, start:stop] = v]: the value is broadcast into the shape of the
    slice, else ValueError. *)
Definition setitem_cols (a : ndarray2) (start stop : option Z) (v : ndarray2) : result ndarray2 :=
  let (lo, hi) := slice_bounds (ncols a) start stop in
  if (broadcasts_into (nrows v) (nrows a) && broadcasts_into (ncols v) (hi - lo))%bool
  then Ok {| nrows := nrows a; ncols := ncols a;
             cell := fun i j =>
               if ((lo <=? j) && (j <? hi))%nat
               then cell v (broadcast_index (nrows v) i) (broadcast_index (ncols v) (j - lo))
               else cell a i j |}
  else Raise ValueError.

Module Figure7.

(** The arrays the masks are made of and applied to. *)
Record loaded : Type :=
  { so2_ash_omps : ndarray2;
    so2_ash_caliop : ndarray2;
    so2_only_omps : ndarray2;
    so2_only_caliop : ndarray2;
    caliop : ndarray2;
    omps : ndarray2 }.

(** [calipso_mask = np.ones((181, 147));
    calipso_mask[np.isnan(caliop[:, :147])] = np.nan]. *)
Definition calipso_mask (d : loaded) : result ndarray2 :=
  setitem_bool2 (np_ones 181 147) (np_isnan2 (getcols None (Some 147%Z) (caliop d))) NaN.

(** [omps_mask = np.ones((181, 219));
    omps_mask[np.isnan(omps[:, 147:])] = np.nan]. *)
Definition omps_mask (d : loaded) : result ndarray2 :=
  setitem_bool2 (np_ones 181 219) (np_isnan2 (getcols (Some 147%Z) None (omps d))) NaN.

(** The four statements that build [so2_ash_masked], after the two masks. *)
Definition so2_ash_masked (d : loaded) : result ndarray2 :=
  rbind (calipso_mask d) (fun calipso_mask =>
  rbind (omps_mask d) (fun omps_mask =>
  let so2_ash_masked := setitem_all (np_zeros 181 366) NaN in
  rbind (np_multiply2 (getcols None (Some 147%Z) (so2_ash_caliop d)) calipso_mask) (fun left =>
  rbind (setitem_cols so2_ash_masked None (Some 147%Z) left) (fun so2_ash_masked =>
  rbind (np_multiply2 (getcols (Some 147%Z) None (so2_ash_omps d)) omps_mask) (fun right =>
  setitem_cols so2_ash_masked (Some 147%Z) None right))))).

Definition so2_only_masked (d : loaded) : result ndarray2 :=
  rbind (calipso_mask d) (fun calipso_mask =>
  rbind (omps_mask d) (fun omps_mask =>
  let so2_only_masked := setitem_all (np_zeros 181 366) NaN in
  rbind (np_multiply2 (getcols None (Some 147%Z) (so2_only_caliop d)) calipso_mask) (fun left =>
  rbind (setitem_cols so2_only_masked None (Some 147%Z) left) (fun so2_only_masked =>
  rbind (np_multiply2 (getcols (Some 147%Z) None (so2_only_omps d)) omps_mask) (fun right =>
  setitem_cols so2_only_masked (Some 147%Z) None right))))).

End Figure7.

(** ** Figure5.py: the average as a plain array *)

(** [a.filled(fill_value)]: the data with the fill value under the mask. *)
Definition filled (fill_value : float64) (a : list mcell) : list float64 :=
  map (fun c => match c with Masked => fill_value | Unmasked x => x end) a.

(** Figure5.py: [caliop_mean = np.ma.average(...)] and
    [caliop_area_average = caliop_mean.filled(fill_value=np.nan)]. *)
Definition caliop_area_average (np_cos : R -> R) (caliop : ndarray2) : result (list float64) :=
  rbind (omps_area_average np_cos caliop) (fun caliop_mean => Ok (filled NaN caliop_mean)).

(** * The vocabulary of the statements *)

(** [x] is the first index from [from] on at which the segment is nearest
    to [v]. *)
Definition is_nearest_from (rs : list R) (from : nat) (v : R) (x : nat) : Prop :=
  (from <= x < length rs)%nat
  /\ (forall j, (from <= j < length rs)%nat ->
        Rabs (nth x rs 0 - v) <= Rabs (nth j rs 0 - v))
  /\ (forall j, (from <= j < x)%nat ->
        Rabs (nth x rs 0 - v) < Rabs (nth j rs 0 - v)).

(** The first index of the greatest value. *)
Definition is_first_max (rs : list R) (x : nat) : Prop :=
  (x < length rs)%nat
  /\ (forall j, (j < length rs)%nat -> nth j rs 0 <= nth x rs 0)
  /\ (forall j, (j < x)%nat -> nth j rs 0 < nth x rs 0).

(** The mask has the fixed shape 181 x 366. *)
Definition has_mask_shape (a : ndarray2) : bool :=
  ((nrows a =? 181) && (ncols a =? 366))%nat.

(** The shapes that broadcast against 181 x 366. *)
Definition broadcasts_to_mask (a : ndarray2) : bool :=
  (((nrows a =? 181) || (nrows a =? 1)) && ((ncols a =? 366) || (ncols a =? 1)))%nat.

(** The value of the mask at a cell of the reference. *)
Definition mask_value (reference : ndarray2) (i j : nat) : float64 :=
  if isnan (cell reference i j) then NaN else Fin 1.

(** The finite value a cell carries. *)
Definition value (x : float64) : R :=
  match x with Fin r => r | _ => 0 end.

Definition Rsum (l : list R) : R := fold_right Rplus 0 l.

(** The rows of [rows] at which column [j] of the field is finite. *)
Definition finite_rows (F : ndarray2) (rows : list nat) (j : nat) : list nat :=
  filter (fun i => isfinite (cell F i j)) rows.

(** The rows 120..180 of the band 30N-90N. *)
Definition band : list nat := seq 120 61.

(** The weight of row [i], the latitude [i - 90] degrees. *)
Definition weight (np_cos : R -> R) (i : nat) : R :=
  np_cos (np_deg2rad (IZR (-90 + Z.of_nat i))).

(** The weighted mean of column [j] over the rows [rows]. *)
Definition weighted_mean (np_cos : R -> R) (F : ndarray2) (rows : list nat) (j : nat) : R :=
  Rsum (map (fun i => weight np_cos i * value (cell F i j)) rows)
  / Rsum (map (weight np_cos) rows).

(** What [masked_invalid] makes of one cell. *)
Definition masked_cell (x : float64) : mcell :=
  if isfinite x then Unmasked x else Masked.

(** A cell that is masked where [x] is not finite and carries [r] elsewhere. *)
Definition carried (x : float64) (r : R) : mcell :=
  if isfinite x then Unmasked (Fin r) else Masked.

(** The rows of [rows] at which column [j] of the field is not NaN. *)
Definition not_nan_rows (F : ndarray2) (rows : list nat) (j : nat) : list nat :=
  filter (fun i => negb (isnan (cell F i j))) rows.

Definition fsum (l : list float64) : float64 := fold_right fadd (Fin 0) l.

(** The average in the words of the specification, not of the code: the
    weighted sum over the band rows at which the field is not NaN, divided
    by the sum of their weights, and NaN when every sample of the band is
    NaN. *)
Definition spec_weighted_average (np_cos : R -> R) (F : ndarray2) (j : nat) : float64 :=
  match not_nan_rows F band j with
  | [] => NaN
  | rows =>
      fdiv (fsum (map (fun i => fmul (Fin (weight np_cos i)) (cell F i j)) rows))
           (fsum (map (fun i => Fin (weight np_cos i)) rows))
  end.

(** ** Figure3.py: the zonal mean *)

(** A field on latitude, longitude and time. *)
Record ndarray3 : Type :=
  mk_ndarray3 { dim0 : nat; dim1 : nat; dim2 : nat; cell3 : nat -> nat -> nat -> float64 }.

(** [np.nanmean] on the samples of one slice: NaN is replaced by zero in the
    sum and left out of the count; the sum is divided by the count, which
    gives NaN ([0/0], with a warning) when every sample is NaN. *)
Definition replace_nan (x : float64) : float64 := if isnan x then Fin 0 else x.

Definition count_not_nan (l : list float64) : nat :=
  length (filter (fun x => negb (isnan x)) l).

Definition nanmean (l : list float64) : float64 :=
  fdiv (fsum (map replace_nan l)) (Fin (INR (count_not_nan l))).

(** [np.nanmean(a, axis = 1)]. *)
Definition np_nanmean_axis1 (a : ndarray3) : ndarray2 :=
  {| nrows := dim0 a; ncols := dim2 a;
     cell := fun i k => nanmean (map (fun j => cell3 a i j k) (seq 0 (dim1 a))) |}.

(** [omps_lon_averaged = np.nanmean(omps, axis = 1)]. *)
Definition omps_lon_averaged (omps : ndarray3) : ndarray2 := np_nanmean_axis1 omps.

(** The longitudes of row [i] on day [k]. *)
Definition longitudes (a : ndarray3) (i k : nat) : list float64 :=
  map (fun j => cell3 a i j k) (seq 0 (dim1 a)).

(** ** Figure8.py: the Angstrom exponent *)

(** [np.log] on a masked entry: the entry is masked where the argument is
    not greater than zero. *)
Definition ma_log (x : mcell) : mcell :=
  match x with
  | Masked => Masked
  | Unmasked NaN => Unmasked NaN
  | Unmasked PInf => Unmasked PInf
  | Unmasked NInf => Masked
  | Unmasked (Fin a) => if Rltb 0 a then Unmasked (Fin (ln a)) else Masked
  end.

Definition ma_negative (x : mcell) : mcell :=
  match x with
  | Masked => Masked
  | Unmasked a => Unmasked (fneg a)
  end.

(** One entry of [- (np.log(aod_1 / aod_2)) / (np.log(wl_1 / wl_2))]. *)
Definition angstrom (wl_1 wl_2 : R) (aod_1 aod_2 : mcell) : mcell :=
  ma_true_divide (ma_negative (ma_log (ma_true_divide aod_1 aod_2)))
                 (Unmasked (Fin (ln (wl_1 / wl_2)))).

(** The entries of [AE_so2_ash] and [AE_so2_only] (510 and 865 nm) and of
    [AE_omps] (510 and 869 nm). *)
Definition AE_so2_ash (so2_ash_550_mean so2_ash_865_mean : mcell) : mcell :=
  angstrom 510 865 so2_ash_550_mean so2_ash_865_mean.

Definition AE_so2_only (so2_only_550_mean so2_only_865_mean : mcell) : mcell :=
  angstrom 510 865 so2_only_550_mean so2_only_865_mean.

Definition AE_omps (omps_510_mean omps_869_mean : mcell) : mcell :=
  angstrom 510 869 omps_510_mean omps_869_mean.

(** The rows of [rows] at which the model is finite and the observation is
    not NaN. *)
Definition common_rows (model obs : ndarray2) (rows : list nat) (j : nat) : list nat :=
  filter (fun i => isfinite (cell model i j) && negb (isnan (cell obs i j)))%bool rows.

(** * Sample data *)



(** A curve of 23 samples: NaN before the onset, then 3, NaN, 1. *)
Definition short_curve : list float64 :=
  repeat NaN 20 ++ [Fin 3; NaN; Fin 1].

Definition whole (n : nat) : ndarray := {| base := 0; offset := 0; size := n |}.

(** A curve whose peak lies before the onset: 1 on the first day, 0 on the
    twenty days after it. *)
Definition early_peak : list R := 1 :: repeat 0 20.

Definition early_peak_curve : list float64 := map Fin early_peak.



(** A field with 100 latitudes: the row 120 lies outside its latitude axis. *)
Definition short_field : ndarray2 :=
  {| nrows := 100; ncols := 3; cell := fun _ _ => Fin 2 |}.

(** A constant field of the mask's shape, and a reference that is valid
    everywhere except for an infinity in its first cell. *)
Definition constant_field (r c : nat) (x : float64) : ndarray2 :=
  {| nrows := r; ncols := c; cell := fun _ _ => x |}.

Definition inf_reference : ndarray2 :=
  {| nrows := 181; ncols := 366;
     cell := fun i j => if ((i =? 0) && (j =? 0))%nat then PInf else Fin 1 |}.

(** A single row of 366 days against a reference of 181 latitudes. *)
Definition one_row : ndarray2 := constant_field 1 366 (Fin 2).

Definition valid_reference : ndarray2 := constant_field 181 366 (Fin 5).

(** Two days on the 181 latitudes.  Day 0: an infinity at 30N, the value 2
    at 31N, NaN elsewhere.  Day 1: NaN everywhere. *)
Definition infinite_sample : ndarray2 :=
  {| nrows := 181; ncols := 2;
     cell := fun i j =>
       if (j =? 0)%nat
       then (if (i =? 120)%nat then PInf
             else if (i =? 121)%nat then Fin 2 else NaN)
       else NaN |}.

(** One day on the 181 latitudes: an infinity at 30N and NaN elsewhere. *)
Definition lone_infinity : ndarray2 :=
  {| nrows := 181; ncols := 1;
     cell := fun i _ => if (i =? 120)%nat then PInf else NaN |}.

(** Observations at 510 nm that miss one cell, at row [r] on the first
    day, and are valid elsewhere; every other array is valid everywhere. *)
Definition missing_at (r : nat) : ndarray2 :=
  {| nrows := 181; ncols := 366;
     cell := fun i j => if ((i =? r) && (j =? 0))%nat then NaN else Fin 1 |}.

Definition loaded_missing_at (r : nat) : Figure8.loaded :=
  {| Figure8.so2_ash_550 := constant_field 181 366 (Fin 1);
     Figure8.so2_ash_865 := constant_field 181 366 (Fin 1);
     Figure8.so2_only_550 := constant_field 181 366 (Fin 1);
     Figure8.so2_only_865 := constant_field 181 366 (Fin 1);
     Figure8.omps_510 := missing_at r;
     Figure8.omps_869 := constant_field 181 366 (Fin 1) |}.

(** The short curve in another unit: every sample multiplied by 1000. *)
Definition short_curve_scaled : list float64 :=
  map (fun x => fmul x (Fin 1000)) short_curve.

(** Observations at 869 nm that miss the same cell as [missing_at r]. *)
Definition missing_at_869 (r : nat) : ndarray2 :=
  {| nrows := 181; ncols := 366;
     cell := fun i j => if ((i =? r) && (j =? 0))%nat then NaN else Fin 3 |}.

Definition loaded_same_gaps (r : nat) : Figure8.loaded :=
  {| Figure8.so2_ash_550 := constant_field 181 366 (Fin 1);
     Figure8.so2_ash_865 := constant_field 181 366 (Fin 1);
     Figure8.so2_only_550 := constant_field 181 366 (Fin 1);
     Figure8.so2_only_865 := constant_field 181 366 (Fin 1);
     Figure8.omps_510 := missing_at r;
     Figure8.omps_869 := missing_at_869 r |}.

(** A CALIOP array of 100 days; the other arrays are 181 x 366. *)
Definition loaded_short_caliop : Figure7.loaded :=
  {| Figure7.so2_ash_omps := constant_field 181 366 (Fin 1);
     Figure7.so2_ash_caliop := constant_field 181 366 (Fin 1);
     Figure7.so2_only_omps := constant_field 181 366 (Fin 1);
     Figure7.so2_only_caliop := constant_field 181 366 (Fin 1);
     Figure7.caliop := constant_field 181 100 (Fin 1);
     Figure7.omps := constant_field 181 366 (Fin 1) |}.

Definition loaded_valid : Figure7.loaded :=
  {| Figure7.so2_ash_omps := constant_field 181 366 (Fin 1);
     Figure7.so2_ash_caliop := constant_field 181 366 (Fin 2);
     Figure7.so2_only_omps := constant_field 181 366 (Fin 1);
     Figure7.so2_only_caliop := constant_field 181 366 (Fin 2);
     Figure7.caliop := missing_at 120;
     Figure7.omps := constant_field 181 366 (Fin 1) |}.


(** A day of observations on two longitudes: the first longitude is missing
    everywhere, the second holds 2 at 30N and is missing elsewhere. *)
Definition sparse_observations : ndarray3 :=
  {| dim0 := 181; dim1 := 2; dim2 := 1;
     cell3 := fun i j _ =>
       if (j =? 0)%nat then NaN else if (i =? 120)%nat then Fin 2 else NaN |}.

(** An exponential decay of amplitude [A] and integer time constant [T]
    days, sampled on the days [first, first + n). *)
Definition exp_decay (A : R) (T : nat) (t : nat) : R := A * exp (- INR t / INR T).

Definition exp_decay_curve (A : R) (T first n : nat) : list float64 :=
  map (fun t => Fin (exp_decay A T t)) (seq first n).

(** * Properties *)

(** ** The heap of one-dimensional arrays *)

Lemma contents_getslice_from (h : heap) (a : ndarray) (k : nat) :
  contents h (getslice_from a k) = skipn k (contents h a).
Proof.
  unfold contents, getslice_from; cbn [base offset size].
  rewrite skipn_firstn_comm, skipn_skipn.
  destruct (Nat.le_gt_cases k (size a)) as [Hle | Hgt].
  - rewrite Nat.min_l by exact Hle. f_equal. f_equal. lia.
  - replace (size a - k)%nat with O by lia. reflexivity.
Qed.

Lemma nth_heap_new (h : heap) (b : buffer) :
  nth (length h) (h ++ [b]) [] = b.
Proof.
  rewrite app_nth2 by lia. rewrite Nat.sub_diag. reflexivity.
Qed.

Lemma nth_heap_old (h : heap) (b : buffer) (n : nat) :
  (n < length h)%nat -> nth n (h ++ [b]) [] = nth n h [].
Proof.
  intros Hn. apply app_nth1. exact Hn.
Qed.

Lemma update_nth_heap_new (f : buffer -> buffer) (h : heap) (b : buffer) :
  update_nth (length h) f (h ++ [b]) = h ++ [f b].
Proof.
  induction h as [| b0 h IH]; cbn.
  - reflexivity.
  - rewrite IH. reflexivity.
Qed.

Lemma put_where_length (mask : list bool) (v : float64) (l : list float64) :
  length (put_where mask v l) = length l.
Proof.
  revert l. induction mask as [| b mask IH]; intros [| x l]; cbn; auto.
Qed.

Lemma nan_to_zero_length (seg : list float64) :
  length (nan_to_zero seg) = length seg.
Proof.
  apply put_where_length.
Qed.

Lemma contents_length (h : heap) (a : ndarray) :
  valid h a -> length (contents h a) = size a.
Proof.
  intros [_ Hlen]. unfold contents.
  rewrite length_firstn, length_skipn. lia.
Qed.

(** A fresh array that spans its whole buffer shows exactly that buffer. *)
Lemma contents_whole (h : heap) (b : buffer) (n : nat) :
  n = length b ->
  contents (h ++ [b]) {| base := length h; offset := 0; size := n |} = b.
Proof.
  intros ->. unfold contents; cbn [base offset size].
  rewrite nth_heap_new. cbn [skipn]. apply firstn_all.
Qed.

Lemma write_window_whole (f : list float64 -> list float64) (b : buffer) (n m : nat) :
  n = length b ->
  write_window {| base := m; offset := 0; size := n |} f b = f b.
Proof.
  intros ->. unfold write_window; cbn [offset size firstn skipn Nat.add].
  rewrite firstn_all, skipn_all, app_nil_r. reflexivity.
Qed.

(** What a run of [e_folding_time] returns and leaves in memory: the
    estimate on the elements after the first 20, and one new buffer. *)
Lemma e_folding_time_run (h : heap) (data : ndarray) :
  valid h data ->
  e_folding_time data h =
    (estimate_on_segment (skipn 20 (contents h data)),
     h ++ [nan_to_zero (skipn 20 (contents h data))]).
Proof.
  intros Hv.
  assert (Hlen : length (skipn 20 (contents h data)) = (size data - 20)%nat).
  { rewrite length_skipn, (contents_length h data Hv). reflexivity. }
  unfold e_folding_time, find_nearest, np_isnan, copy_copy, setitem_bool,
    estimate_on_segment, nearest_index, bind, read, lift, ret.
  rewrite contents_getslice_from.
  set (seg := skipn 20 (contents h data)) in *.
  cbn [size base getslice_from].
  rewrite (contents_whole h seg) by (symmetry; exact Hlen).
  rewrite length_map, Hlen, Nat.eqb_refl.
  rewrite update_nth_heap_new.
  rewrite (write_window_whole _ seg) by (symmetry; exact Hlen).
  fold (nan_to_zero seg).
  set (c := nan_to_zero seg).
  assert (Hc : (size data - 20)%nat = length c).
  { unfold c. rewrite nan_to_zero_length. symmetry. exact Hlen. }
  rewrite (contents_whole h c) by exact Hc.
  destruct (np_nanmax c) as [vmax | e]; cbn [rbind]; [| reflexivity].
  destruct (np_argmin (np_abs (np_subtract_scalar c vmax))) as [x_max | e];
    cbn [rbind]; [| reflexivity].
  rewrite contents_getslice_from, (contents_whole h c) by exact Hc.
  destruct (np_argmin _) as [k | e]; cbn [rbind]; reflexivity.
Qed.

(** ** [argmin] and [nanmax] on finite data *)

Lemma Rltb_true (a b : R) : Rltb a b = true <-> a < b.
Proof.
  unfold Rltb. destruct (Rlt_dec a b); split; intros H;
    first [assumption | reflexivity | discriminate | contradiction].
Qed.

Lemma Rltb_false (a b : R) : Rltb a b = false <-> b <= a.
Proof.
  unfold Rltb. destruct (Rlt_dec a b); split; intros H;
    first [reflexivity | discriminate | lra].
Qed.

Lemma Reqb_true (a b : R) : Reqb a b = true <-> a = b.
Proof.
  unfold Reqb. destruct (Req_dec_T a b); split; intros H;
    first [assumption | reflexivity | discriminate | contradiction].
Qed.

Lemma Reqb_false (a b : R) : Reqb a b = false <-> a <> b.
Proof.
  unfold Reqb. destruct (Req_dec_T a b); split; intros H;
    first [assumption | reflexivity | discriminate | contradiction].
Qed.

(** The scan on finite values: either nothing beats the running minimum, or
    the result is the first position of the least value, which beats it. *)
Lemma argmin_scan_fin (rs : list R) :
  forall (i : nat) (m : R) (mi : nat),
    let r := argmin_scan (map Fin rs) i (Fin m) mi in
    (r = mi /\ forall j, (j < length rs)%nat -> m <= nth j rs 0)
    \/ (exists k, r = (i + k)%nat /\ (k < length rs)%nat /\ nth k rs 0 < m
          /\ (forall j, (j < length rs)%nat -> nth k rs 0 <= nth j rs 0)
          /\ (forall j, (j < k)%nat -> nth k rs 0 < nth j rs 0)).
Proof.
  induction rs as [| x rs IH]; intros i m mi; cbn -[nth].
  - left. split; [reflexivity | intros j Hj; lia].
  - unfold fgeb; cbn -[nth]. rewrite Bool.negb_involutive.
    destruct (Rltb x m) eqn:Hx.
    + apply Rltb_true in Hx.
      destruct (IH (S i) x i) as [[Hr Hall] | (k & Hr & Hk & Hlt & Hmin & Hfirst)].
      * right. exists O. rewrite Hr. repeat split.
        -- lia.
        -- lia.
        -- exact Hx.
        -- intros [| j] Hj; cbn; [lra | apply Hall; lia].
        -- intros j Hj; lia.
      * right. exists (S k). rewrite Hr. repeat split.
        -- lia.
        -- lia.
        -- cbn. lra.
        -- intros [| j] Hj; cbn; [lra | apply Hmin; lia].
        -- intros [| j] Hj; cbn; [lra | apply Hfirst; lia].
    + apply Rltb_false in Hx.
      destruct (IH (S i) m mi) as [[Hr Hall] | (k & Hr & Hk & Hlt & Hmin & Hfirst)].
      * left. split; [exact Hr |].
        intros [| j] Hj; cbn; [lra | apply Hall; lia].
      * right. exists (S k). rewrite Hr. repeat split.
        -- lia.
        -- lia.
        -- cbn. lra.
        -- intros [| j] Hj; cbn; [lra | apply Hmin; lia].
        -- intros [| j] Hj; cbn; [lra | apply Hfirst; lia].
Qed.

(** [argmin] of a non-empty finite array: the first index of the least
    value. *)
Lemma np_argmin_fin (rs : list R) :
  rs <> [] ->
  exists r, np_argmin (map Fin rs) = Ok r /\ (r < length rs)%nat
    /\ (forall j, (j < length rs)%nat -> nth r rs 0 <= nth j rs 0)
    /\ (forall j, (j < r)%nat -> nth r rs 0 < nth j rs 0).
Proof.
  destruct rs as [| x rs]; [congruence | intros _].
  cbn [map np_argmin].
  destruct (argmin_scan_fin rs 1 x 0) as [[Hr Hall] | (k & Hr & Hk & Hlt & Hmin & Hfirst)].
  - exists O. rewrite Hr. repeat split.
    + cbn; lia.
    + intros [| j] Hj; cbn in *; [lra | apply Hall; lia].
    + intros j Hj; lia.
  - exists (S k). rewrite Hr. repeat split.
    + cbn; lia.
    + intros [| j] Hj; cbn in *; [lra | apply Hmin; lia].
    + intros [| j] Hj; cbn in *; [lra | apply Hfirst; lia].
Qed.

(** The first index of the least value is unique, so it is what [argmin]
    returns. *)
Lemma np_argmin_fin_unique (rs : list R) (r0 : nat) :
  (r0 < length rs)%nat ->
  (forall j, (j < length rs)%nat -> nth r0 rs 0 <= nth j rs 0) ->
  (forall j, (j < r0)%nat -> nth r0 rs 0 < nth j rs 0) ->
  np_argmin (map Fin rs) = Ok r0.
Proof.
  intros Hr0 Hmin0 Hfirst0.
  destruct (np_argmin_fin rs) as (r & Heq & Hr & Hmin & Hfirst).
  { intros ->. cbn in Hr0. lia. }
  rewrite Heq. f_equal.
  destruct (Nat.lt_trichotomy r r0) as [Hlt | [Heq' | Hgt]].
  - specialize (Hfirst0 r Hlt). specialize (Hmin r0 Hr0). lra.
  - exact Heq'.
  - specialize (Hfirst r0 Hgt). specialize (Hmin0 r Hr). lra.
Qed.

Lemma fmax_fin (a b : R) : fmax (Fin a) (Fin b) = Fin (Rmax a b).
Proof.
  unfold fmax; cbn. unfold Rmax.
  destruct (Rltb a b) eqn:H.
  - apply Rltb_true in H. destruct (Rle_dec a b); [reflexivity | lra].
  - apply Rltb_false in H. destruct (Rle_dec a b); [| reflexivity].
    f_equal. lra.
Qed.

Lemma fold_fmax_fin (rs : list R) :
  forall m, fold_left fmax (map Fin rs) (Fin m) = Fin (fold_left Rmax rs m).
Proof.
  induction rs as [| x rs IH]; intros m; cbn [map fold_left].
  - reflexivity.
  - rewrite fmax_fin. apply IH.
Qed.

Lemma fold_Rmax_ge (rs : list R) :
  forall m, m <= fold_left Rmax rs m
    /\ forall j, (j < length rs)%nat -> nth j rs 0 <= fold_left Rmax rs m.
Proof.
  induction rs as [| x rs IH]; intros m; cbn.
  - split; [lra | intros j Hj; lia].
  - destruct (IH (Rmax m x)) as [Hm Hall].
    pose proof (Rmax_l m x). pose proof (Rmax_r m x).
    split; [lra |].
    intros [| j] Hj; [lra | apply Hall; lia].
Qed.

Lemma fold_Rmax_in (rs : list R) :
  forall m, fold_left Rmax rs m = m
    \/ exists j, (j < length rs)%nat /\ nth j rs 0 = fold_left Rmax rs m.
Proof.
  induction rs as [| x rs IH]; intros m; cbn.
  - left; reflexivity.
  - destruct (IH (Rmax m x)) as [Heq | (j & Hj & Heq)].
    + rewrite Heq. unfold Rmax. destruct (Rle_dec m x).
      * right. exists O. split; [lia | reflexivity].
      * left. reflexivity.
    + right. exists (S j). split; [lia | exact Heq].
Qed.

(** [np.nanmax] of a non-empty finite array is its greatest element. *)
Lemma np_nanmax_fin (rs : list R) :
  rs <> [] ->
  exists vmax, np_nanmax (map Fin rs) = Ok (Fin vmax)
    /\ (forall j, (j < length rs)%nat -> nth j rs 0 <= vmax)
    /\ (exists j, (j < length rs)%nat /\ nth j rs 0 = vmax).
Proof.
  destruct rs as [| x rs]; [congruence | intros _].
  cbn [map np_nanmax]. rewrite fold_fmax_fin.
  exists (fold_left Rmax rs x).
  destruct (fold_Rmax_ge rs x) as [Hx Hall].
  split; [reflexivity | split].
  - intros [| j] Hj; cbn in *; [lra | apply Hall; lia].
  - destruct (fold_Rmax_in rs x) as [Heq | (j & Hj & Heq)].
    + exists O. cbn. split; [lia | symmetry; exact Heq].
    + exists (S j). cbn. split; [lia | exact Heq].
Qed.

(** ** The estimator on a finite segment *)

Lemma nth_map_lt {A B : Type} (f : A -> B) (l : list A) (j : nat) (d : A) (d' : B) :
  (j < length l)%nat -> nth j (map f l) d' = f (nth j l d).
Proof.
  intros Hj. rewrite (nth_indep (map f l) d' (f d)).
  - apply map_nth.
  - rewrite length_map. exact Hj.
Qed.

Lemma math_e_pos : 0 < math_e.
Proof. unfold math_e. apply exp_pos. Qed.

Lemma fdiv_math_e (v : R) : fdiv (Fin v) (Fin math_e) = Fin (v / math_e).
Proof.
  cbn. destruct (Reqb math_e 0) eqn:H; [| reflexivity].
  apply Reqb_true in H. pose proof math_e_pos. lra.
Qed.

Lemma nearest_index_fin (rs : list R) (v : R) :
  nearest_index (map Fin rs) (Fin v)
  = np_argmin (map Fin (map (fun x => Rabs (x - v)) rs)).
Proof.
  unfold nearest_index, np_abs, np_subtract_scalar.
  rewrite !map_map. reflexivity.
Qed.

Lemma nearest_index_from (rs : list R) (from : nat) (v : R) (x : nat) :
  is_nearest_from rs from v x ->
  nearest_index (skipn from (map Fin rs)) (Fin v) = Ok (x - from)%nat.
Proof.
  intros (Hx & Hmin & Hfirst).
  rewrite skipn_map, nearest_index_fin.
  assert (Hlen : length (skipn from rs) = (length rs - from)%nat)
    by apply length_skipn.
  apply np_argmin_fin_unique.
  - rewrite length_map, Hlen. lia.
  - rewrite length_map, Hlen. intros j Hj.
    rewrite !(nth_map_lt _ _ _ 0) by (rewrite Hlen; lia).
    rewrite !nth_skipn. replace (from + (x - from))%nat with x by lia.
    apply Hmin. lia.
  - intros j Hj.
    rewrite !(nth_map_lt _ _ _ 0) by (rewrite Hlen; lia).
    rewrite !nth_skipn. replace (from + (x - from))%nat with x by lia.
    apply Hfirst. lia.
Qed.

Lemma nearest_index_from_exists (rs : list R) (from : nat) (v : R) :
  (from < length rs)%nat ->
  exists x, is_nearest_from rs from v x.
Proof.
  intros Hfrom.
  assert (Hlen : length (skipn from rs) = (length rs - from)%nat)
    by apply length_skipn.
  destruct (np_argmin_fin (map (fun x => Rabs (x - v)) (skipn from rs)))
    as (k & _ & Hk & Hmin & Hfirst).
  { intros Hnil. apply (f_equal (@length R)) in Hnil.
    rewrite length_map, Hlen in Hnil. cbn in Hnil. lia. }
  rewrite length_map, Hlen in Hk, Hmin.
  exists (from + k)%nat. split; [lia | split].
  - intros j Hj. specialize (Hmin (j - from)%nat ltac:(lia)).
    rewrite !(nth_map_lt _ _ _ 0), !nth_skipn in Hmin by (rewrite Hlen; lia).
    replace (from + (j - from))%nat with j in Hmin by lia. exact Hmin.
  - intros j Hj. specialize (Hfirst (j - from)%nat ltac:(lia)).
    rewrite !(nth_map_lt _ _ _ 0), !nth_skipn in Hfirst by (rewrite Hlen; lia).
    replace (from + (j - from))%nat with j in Hfirst by lia. exact Hfirst.
Qed.

(** The index nearest to the greatest value is the first maximum. *)
Lemma first_max_is_nearest (rs : list R) (x : nat) :
  is_first_max rs x -> is_nearest_from rs 0 (nth x rs 0) x.
Proof.
  intros (Hx & Hmax & Hfirst). split; [lia | split].
  - intros j Hj. rewrite Rminus_diag, Rabs_R0. apply Rabs_pos.
  - intros j Hj. rewrite Rminus_diag, Rabs_R0. apply Rabs_pos_lt.
    specialize (Hfirst j ltac:(lia)). lra.
Qed.

Lemma first_max_exists (rs : list R) :
  rs <> [] -> exists x, is_first_max rs x.
Proof.
  intros Hne.
  destruct (np_nanmax_fin rs Hne) as (vmax & _ & Hall & (j0 & Hj0 & Hj0v)).
  destruct (nearest_index_from_exists rs 0 vmax) as (x & Hx & Hmin & Hfirst).
  { lia. }
  assert (Hxv : nth x rs 0 = vmax).
  { specialize (Hmin j0 ltac:(lia)). rewrite Hj0v, Rminus_diag, Rabs_R0 in Hmin.
    pose proof (Rabs_pos (nth x rs 0 - vmax)) as Hpos.
    assert (Hz : Rabs (nth x rs 0 - vmax) = 0) by lra.
    destruct (Req_dec (nth x rs 0 - vmax) 0) as [Heq | Hneq]; [lra |].
    apply Rabs_no_R0 in Hneq. contradiction. }
  exists x. split; [lia | split].
  - intros j Hj. rewrite Hxv. apply Hall. exact Hj.
  - intros j Hj. specialize (Hfirst j ltac:(lia)).
    rewrite Hxv, Rminus_diag, Rabs_R0 in Hfirst.
    specialize (Hall j ltac:(lia)). rewrite Hxv.
    destruct (Req_dec (nth j rs 0) vmax) as [Heq | Hneq]; [| lra].
    rewrite Heq, Rminus_diag, Rabs_R0 in Hfirst. lra.
Qed.

Lemma np_nanmax_first_max (rs : list R) (x : nat) :
  is_first_max rs x -> np_nanmax (map Fin rs) = Ok (Fin (nth x rs 0)).
Proof.
  intros (Hx & Hmax & _).
  destruct (np_nanmax_fin rs) as (vmax & Heq & Hall & (j0 & Hj0 & Hj0v)).
  { intros ->. cbn in Hx. lia. }
  rewrite Heq. do 2 f_equal.
  specialize (Hmax j0 Hj0). specialize (Hall x Hx). lra.
Qed.

(** The estimate, from the two indices that characterise it. *)
Lemma estimate_on_segment_fin (seg : list float64) (rs : list R) (x_max x_e : nat) :
  nan_to_zero seg = map Fin rs ->
  is_first_max rs x_max ->
  is_nearest_from rs x_max (nth x_max rs 0 / math_e) x_e ->
  estimate_on_segment seg = Ok (Z.of_nat x_e - Z.of_nat x_max)%Z.
Proof.
  intros Hseg Hmax Hnear.
  unfold estimate_on_segment. rewrite Hseg.
  rewrite (np_nanmax_first_max rs x_max Hmax). cbn [rbind].
  pose proof (nearest_index_from rs 0 _ x_max (first_max_is_nearest rs x_max Hmax)) as H0.
  cbn [skipn] in H0. rewrite H0, Nat.sub_0_r. cbn [rbind].
  rewrite fdiv_math_e.
  rewrite (nearest_index_from rs x_max _ x_e Hnear). cbn [rbind].
  destruct Hnear as (Hx & _). do 2 f_equal. lia.
Qed.

Lemma put_where_fin (rs : list R) (v : float64) :
  put_where (map isnan (map Fin rs)) v (map Fin rs) = map Fin rs.
Proof.
  induction rs as [| x rs IH]; cbn; [reflexivity | rewrite IH; reflexivity].
Qed.

Lemma nan_to_zero_fin (rs : list R) : nan_to_zero (map Fin rs) = map Fin rs.
Proof. apply put_where_fin. Qed.





(** ** Figure3.py: what [e_folding_time] returns *)








(** C5.  An array of length 0 or 1 passed to [e_folding_time] makes it raise:
    the slice [data[20:]] is empty and [np.nanmax] raises ValueError on it;
    no offset is returned. *)
Theorem e_folding_time_degenerate (h : heap) (data : ndarray) :
  valid h data ->
  (size data <= 1)%nat ->
  fst (e_folding_time data h) = Raise ValueError.
Proof.
  intros Hv Hsize.
  rewrite (e_folding_time_run h data Hv). cbn [fst].
  assert (Hlen : length (skipn 20 (contents h data)) = O).
  { rewrite length_skipn, (contents_length h data Hv). lia. }
  destruct (skipn 20 (contents h data)) as [| x l]; [reflexivity | discriminate].
Qed.

Lemma e_folding_time_degenerate_witness :
  valid [[Fin 7]] (whole 1)
  /\ (size (whole 1) <= 1)%nat
  /\ fst (e_folding_time (whole 1) [[Fin 7]]) = Raise ValueError.
Proof.
  assert (Hv : valid [[Fin 7]] (whole 1)) by (unfold valid; cbn; lia).
  assert (Hs : (size (whole 1) <= 1)%nat) by (cbn; lia).
  split; [exact Hv | split; [exact Hs |]].
  exact (e_folding_time_degenerate [[Fin 7]] (whole 1) Hv Hs).
Defined.

(** The same holds up to length 20, and the first array that yields an
    offset has 21 samples: its post-onset segment has one sample and the
    offset is 0. *)
Lemma e_folding_time_before_onset (h : heap) (data : ndarray) :
  valid h data ->
  (size data <= 20)%nat ->
  fst (e_folding_time data h) = Raise ValueError.
Proof.
  intros Hv Hsize.
  rewrite (e_folding_time_run h data Hv). cbn [fst].
  assert (Hlen : length (skipn 20 (contents h data)) = O).
  { rewrite length_skipn, (contents_length h data Hv). lia. }
  destruct (skipn 20 (contents h data)) as [| x l]; [reflexivity | discriminate].
Qed.

Lemma e_folding_time_one_sample (h : heap) (data : ndarray) :
  valid h data ->
  size data = 21%nat ->
  fst (e_folding_time data h) = Ok 0%Z.
Proof.
  intros Hv Hsize.
  rewrite (e_folding_time_run h data Hv). cbn [fst].
  assert (Hlen : length (skipn 20 (contents h data)) = 1%nat).
  { rewrite length_skipn, (contents_length h data Hv). lia. }
  destruct (skipn 20 (contents h data)) as [| x [| y l]]; try discriminate.
  reflexivity.
Qed.

Lemma nth_early_peak (j : nat) :
  nth (S j) early_peak 0 = 0.
Proof.
  unfold early_peak. cbn [nth]. apply nth_repeat.
Qed.

Lemma math_e_gt_2 : 2 < math_e.
Proof.
  unfold math_e. pose proof (exp_ineq1 1). lra.
Qed.

Lemma early_peak_whole_estimate :
  estimate_on_segment early_peak_curve = Ok 1%Z.
Proof.
  pose proof math_e_gt_2 as He.
  assert (Hinv : 0 < / math_e < / 2).
  { split; [apply Rinv_0_lt_compat; lra |].
    apply Rinv_lt_contravar; lra. }
  apply (estimate_on_segment_fin _ early_peak 0 1).
  - apply nan_to_zero_fin.
  - split; [cbn; lia | split].
    + intros [| j] Hj; [lra |]. rewrite nth_early_peak. cbn [nth early_peak]. lra.
    + intros j Hj. lia.
  - cbn [nth early_peak]. fold early_peak.
    replace (1 / math_e) with (/ math_e) by (unfold Rdiv; lra).
    split; [cbn; lia | split].
    + intros [| j] Hj.
      * rewrite (nth_early_peak 0). cbn [nth early_peak].
        rewrite Rabs_left by lra. rewrite Rabs_right by lra. lra.
      * rewrite (nth_early_peak 0), (nth_early_peak j). lra.
    + intros j Hj. assert (j = O) by lia. subst j.
      rewrite (nth_early_peak 0). cbn [nth early_peak].
      rewrite Rabs_left by lra. rewrite Rabs_right by lra. lra.
Qed.

(** C6, as the code has it.  [e_folding_time] takes the slice [data[20:]]
    itself: its result is the estimate on the samples from index 20 on, so
    two arrays that agree from index 20 on give the same result whatever
    their first 20 samples are. *)
Theorem e_folding_time_discards_onset (h : heap) (data : ndarray) :
  valid h data ->
  fst (e_folding_time data h) = estimate_on_segment (skipn 20 (contents h data))
  /\ forall (h' : heap) (data' : ndarray),
       valid h' data' ->
       skipn 20 (contents h' data') = skipn 20 (contents h data) ->
       fst (e_folding_time data' h') = fst (e_folding_time data h).
Proof.
  intros Hv. split.
  - rewrite (e_folding_time_run h data Hv). reflexivity.
  - intros h' data' Hv' Heq.
    rewrite (e_folding_time_run h data Hv), (e_folding_time_run h' data' Hv').
    cbn [fst]. rewrite Heq. reflexivity.
Qed.

Lemma e_folding_time_discards_onset_witness :
  valid [early_peak_curve] (whole 21)
  /\ fst (e_folding_time (whole 21) [early_peak_curve])
     = estimate_on_segment (skipn 20 (contents [early_peak_curve] (whole 21)))
  /\ forall (h' : heap) (data' : ndarray),
       valid h' data' ->
       skipn 20 (contents h' data')
       = skipn 20 (contents [early_peak_curve] (whole 21)) ->
       fst (e_folding_time data' h')
       = fst (e_folding_time (whole 21) [early_peak_curve]).
Proof.
  assert (Hv : valid [early_peak_curve] (whole 21)) by (unfold valid; cbn; lia).
  split; [exact Hv |].
  exact (e_folding_time_discards_onset [early_peak_curve] (whole 21) Hv).
Defined.

(** C6, as stated, fails: the maximum of the array below is its first
    sample, and a search of the whole array gives the offset 1, but
    [e_folding_time] never looks at the first 20 samples and returns 0. *)
Lemma e_folding_time_skips_early_peak :
  fst (e_folding_time (whole 21) [early_peak_curve]) = Ok 0%Z
  /\ estimate_on_segment (contents [early_peak_curve] (whole 21)) = Ok 1%Z.
Proof.
  split.
  - apply e_folding_time_one_sample; [unfold valid; cbn; lia | reflexivity].
  - change (contents [early_peak_curve] (whole 21)) with early_peak_curve.
    exact early_peak_whole_estimate.
Qed.

(** ** Figure3.py: the caller's array *)

(** C10.  A call of [e_folding_time] leaves every buffer that existed before
    it as it was, the one under the caller's array included: the heap only
    gains the copy of [data[20:]], and the NaN-to-zero write goes to that
    copy. *)
Theorem e_folding_time_preserves_input (h : heap) (data : ndarray) :
  valid h data ->
  let h' := snd (e_folding_time data h) in
  h' = h ++ [nan_to_zero (skipn 20 (contents h data))]
  /\ (forall n, (n < length h)%nat -> nth n h' [] = nth n h [])
  /\ contents h' data = contents h data.
Proof.
  intros Hv h'. subst h'.
  rewrite (e_folding_time_run h data Hv). cbn [snd].
  split; [reflexivity | split].
  - intros n Hn. apply nth_heap_old. exact Hn.
  - unfold contents. rewrite nth_heap_old by apply Hv. reflexivity.
Qed.

Lemma e_folding_time_preserves_input_witness :
  valid [short_curve] (whole 23)
  /\ (let h' := snd (e_folding_time (whole 23) [short_curve]) in
      h' = [short_curve] ++ [nan_to_zero (skipn 20 (contents [short_curve] (whole 23)))]
      /\ (forall n, (n < length [short_curve])%nat -> nth n h' [] = nth n [short_curve] [])
      /\ contents h' (whole 23) = contents [short_curve] (whole 23)).
Proof.
  assert (Hv : valid [short_curve] (whole 23)) by (unfold valid; cbn; lia).
  split; [exact Hv |].
  exact (e_folding_time_preserves_input [short_curve] (whole 23) Hv).
Defined.

(** The slice alone shares the caller's buffer: the same write made through
    [data[20:]] without the copy would change the caller's array. *)
Lemma setitem_through_slice_writes_input :
  let data := whole 23 in
  let view := getslice_from data 20 in
  let h' := snd (setitem_bool view [false; true; false] (Fin 0) [short_curve]) in
  contents h' data = repeat NaN 20 ++ [Fin 3; Fin 0; Fin 1]
  /\ contents h' data <> contents [short_curve] data.
Proof.
  split; [reflexivity | discriminate].
Qed.

(** ** Figure4.py and Figure8.py: the observation mask *)

Lemma fmul_one_r (x : float64) : fmul x (Fin 1) = x.
Proof.
  destruct x as [| | | a]; cbn; unfold inf_times.
  - reflexivity.
  - replace (Rltb 0 1) with true; [reflexivity |].
    symmetry. apply Rltb_true. lra.
  - replace (Rltb 0 1) with true; [reflexivity |].
    symmetry. apply Rltb_true. lra.
  - rewrite Rmult_1_r. reflexivity.
Qed.

Lemma fmul_nan_r (x : float64) : fmul x NaN = NaN.
Proof.
  destruct x; reflexivity.
Qed.

Lemma mask_ok (reference : ndarray2) :
  has_mask_shape reference = true ->
  exists m, Figure4.mask reference = Ok m
    /\ nrows m = 181%nat /\ ncols m = 366%nat
    /\ forall i j, cell m i j = mask_value reference i j.
Proof.
  intros Hs. unfold Figure4.mask, setitem_bool2.
  cbn [b_nrows b_ncols np_isnan2 np_ones nrows ncols].
  unfold has_mask_shape in Hs. rewrite Hs.
  eexists. split; [reflexivity |]. cbn. repeat split.
Qed.

Lemma mask_shape_error (reference : ndarray2) :
  has_mask_shape reference = false ->
  Figure4.mask reference = Raise IndexError.
Proof.
  intros Hs. unfold Figure4.mask, setitem_bool2.
  cbn [b_nrows b_ncols np_isnan2 np_ones nrows ncols].
  unfold has_mask_shape in Hs. rewrite Hs. reflexivity.
Qed.

Lemma broadcast_dim_mask (n m : nat) :
  m <> 1%nat ->
  broadcast_dim n m = if ((n =? m) || (n =? 1))%nat then Some m else None.
Proof.
  intros Hm. unfold broadcast_dim.
  destruct (Nat.eqb_spec n m) as [-> | Hnm]; cbn; [reflexivity |].
  destruct (Nat.eqb_spec n 1); [reflexivity |].
  destruct (Nat.eqb_spec m 1); [contradiction | reflexivity].
Qed.

(** The product with a mask-shaped right operand. *)
Lemma np_multiply2_mask (target m : ndarray2) :
  nrows m = 181%nat -> ncols m = 366%nat ->
  (broadcasts_to_mask target = false -> np_multiply2 target m = Raise ValueError)
  /\ (broadcasts_to_mask target = true ->
      exists out, np_multiply2 target m = Ok out
        /\ nrows out = 181%nat /\ ncols out = 366%nat
        /\ forall i j,
             cell out i j
             = fmul (cell target (broadcast_index (nrows target) i)
                                 (broadcast_index (ncols target) j))
                    (cell m i j)).
Proof.
  intros Hr Hc. unfold np_multiply2, broadcasts_to_mask.
  rewrite Hr, Hc, !broadcast_dim_mask by lia.
  destruct ((nrows target =? 181) || (nrows target =? 1))%nat;
    destruct ((ncols target =? 366) || (ncols target =? 1))%nat; cbn.
  - split; [discriminate | intros _].
    eexists. split; [reflexivity |]. cbn. repeat split.
  - split; [reflexivity | discriminate].
  - split; [reflexivity | discriminate].
  - split; [reflexivity | discriminate].
Qed.

(** C3, as the code has it.  With target and reference both of the mask's
    shape 181 x 366, the mask is NaN where the reference is NaN and 1
    everywhere else (at an infinite reference too), the output is the
    elementwise product [target * mask], every output cell at which the
    reference is NaN is NaN, and every other output cell is the target's. *)
Theorem masked_product_cells (target reference : ndarray2) :
  has_mask_shape target = true ->
  has_mask_shape reference = true ->
  exists m out,
    Figure4.mask reference = Ok m
    /\ Figure4.so2_ash_omps_limits target reference = Ok out
    /\ nrows out = 181%nat /\ ncols out = 366%nat
    /\ forall i j, (i < 181)%nat -> (j < 366)%nat ->
         cell m i j = (if isnan (cell reference i j) then NaN else Fin 1)
         /\ cell out i j = fmul (cell target i j) (cell m i j)
         /\ (isnan (cell reference i j) = true -> cell out i j = NaN)
         /\ (isnan (cell reference i j) = false -> cell out i j = cell target i j).
Proof.
  intros Ht Href.
  destruct (mask_ok reference Href) as (m & Hm & Hmr & Hmc & Hcell).
  assert (Hb : broadcasts_to_mask target = true).
  { unfold has_mask_shape in Ht. unfold broadcasts_to_mask.
    apply andb_prop in Ht. destruct Ht as [-> ->]. reflexivity. }
  destruct (np_multiply2_mask target m Hmr Hmc) as [_ Hok].
  destruct (Hok Hb) as (out & Hout & Hor & Hoc & Hocell).
  exists m, out. unfold Figure4.so2_ash_omps_limits.
  rewrite Hm. cbn [rbind]. repeat split; try assumption.
  - apply Hcell.
  - rewrite Hocell. unfold has_mask_shape in Ht.
    apply andb_prop in Ht. destruct Ht as [Htr Htc].
    apply Nat.eqb_eq in Htr, Htc. unfold broadcast_index.
    rewrite Htr, Htc. reflexivity.
  - intros Hnan. rewrite Hocell, Hcell. unfold mask_value.
    rewrite Hnan. apply fmul_nan_r.
  - intros Hnan. rewrite Hocell, Hcell. unfold mask_value.
    rewrite Hnan, fmul_one_r. unfold has_mask_shape in Ht.
    apply andb_prop in Ht. destruct Ht as [Htr Htc].
    apply Nat.eqb_eq in Htr, Htc. unfold broadcast_index.
    rewrite Htr, Htc. reflexivity.
Qed.

Lemma masked_product_cells_witness :
  has_mask_shape (constant_field 181 366 (Fin 2)) = true
  /\ has_mask_shape inf_reference = true
  /\ exists m out,
       Figure4.mask inf_reference = Ok m
       /\ Figure4.so2_ash_omps_limits (constant_field 181 366 (Fin 2)) inf_reference = Ok out
       /\ nrows out = 181%nat /\ ncols out = 366%nat
       /\ forall i j, (i < 181)%nat -> (j < 366)%nat ->
            cell m i j = (if isnan (cell inf_reference i j) then NaN else Fin 1)
            /\ cell out i j = fmul (cell (constant_field 181 366 (Fin 2)) i j) (cell m i j)
            /\ (isnan (cell inf_reference i j) = true -> cell out i j = NaN)
            /\ (isnan (cell inf_reference i j) = false ->
                cell out i j = cell (constant_field 181 366 (Fin 2)) i j).
Proof.
  assert (Ht : has_mask_shape (constant_field 181 366 (Fin 2)) = true) by reflexivity.
  assert (Hr : has_mask_shape inf_reference = true) by reflexivity.
  split; [exact Ht | split; [exact Hr |]].
  exact (masked_product_cells (constant_field 181 366 (Fin 2)) inf_reference Ht Hr).
Defined.

(** C3, as stated, fails where the reference is infinite: the cell is not
    finite, yet [np.isnan] is false there, so the mask is 1 and the output
    cell is the target's 2, not NaN. *)
Lemma mask_keeps_infinite_reference :
  isfinite (cell inf_reference 0 0) = false
  /\ exists m out,
       Figure4.mask inf_reference = Ok m
       /\ Figure4.so2_ash_omps_limits (constant_field 181 366 (Fin 2)) inf_reference = Ok out
       /\ cell m 0%nat 0%nat = Fin 1
       /\ cell out 0%nat 0%nat = Fin 2.
Proof.
  split; [reflexivity |].
  eexists. eexists. split; [reflexivity | split; [reflexivity |]].
  cbn. split; [reflexivity |]. f_equal. lra.
Qed.

(** C4, as the code has it.  The scripts make no shape check of their own.
    A reference that has not the mask's shape 181 x 366 makes the boolean
    index raise IndexError; with a reference of that shape, a target that
    does not broadcast against 181 x 366 makes the product raise ValueError,
    and a target that does (each axis of the right length or of length 1) is
    broadcast to 181 x 366 without error. *)
Theorem masking_without_shape_check (target reference : ndarray2) :
  (has_mask_shape reference = false ->
   Figure4.so2_ash_omps_limits target reference = Raise IndexError)
  /\ (has_mask_shape reference = true -> broadcasts_to_mask target = false ->
      Figure4.so2_ash_omps_limits target reference = Raise ValueError)
  /\ (has_mask_shape reference = true -> broadcasts_to_mask target = true ->
      exists out,
        Figure4.so2_ash_omps_limits target reference = Ok out
        /\ nrows out = 181%nat /\ ncols out = 366%nat
        /\ forall i j,
             cell out i j
             = fmul (cell target (broadcast_index (nrows target) i)
                                 (broadcast_index (ncols target) j))
                    (mask_value reference i j)).
Proof.
  unfold Figure4.so2_ash_omps_limits. split; [| split].
  - intros Href. rewrite (mask_shape_error reference Href). reflexivity.
  - intros Href Hb.
    destruct (mask_ok reference Href) as (m & Hm & Hmr & Hmc & Hcell).
    rewrite Hm. cbn [rbind].
    apply (np_multiply2_mask target m Hmr Hmc). exact Hb.
  - intros Href Hb.
    destruct (mask_ok reference Href) as (m & Hm & Hmr & Hmc & Hcell).
    rewrite Hm. cbn [rbind].
    destruct (np_multiply2_mask target m Hmr Hmc) as [_ Hok].
    destruct (Hok Hb) as (out & Hout & Hor & Hoc & Hocell).
    exists out. repeat split; try assumption.
    intros i j. rewrite Hocell, Hcell. reflexivity.
Qed.

Lemma masking_without_shape_check_witness :
  has_mask_shape valid_reference = true
  /\ broadcasts_to_mask one_row = true
  /\ exists out,
       Figure4.so2_ash_omps_limits one_row valid_reference = Ok out
       /\ nrows out = 181%nat /\ ncols out = 366%nat
       /\ forall i j,
            cell out i j
            = fmul (cell one_row (broadcast_index (nrows one_row) i)
                                 (broadcast_index (ncols one_row) j))
                   (mask_value valid_reference i j).
Proof.
  assert (Hr : has_mask_shape valid_reference = true) by reflexivity.
  assert (Hb : broadcasts_to_mask one_row = true) by reflexivity.
  split; [exact Hr | split; [exact Hb |]].
  exact (proj2 (proj2 (masking_without_shape_check one_row valid_reference)) Hr Hb).
Defined.

(** C4, as stated, fails: the target has one row and the reference 181, so
    the shapes differ, and the product is returned all the same, the single
    row repeated over the 181 latitudes. *)
Lemma masking_broadcasts_one_row :
  nrows one_row = 1%nat
  /\ nrows valid_reference = 181%nat
  /\ exists out,
       Figure4.so2_ash_omps_limits one_row valid_reference = Ok out
       /\ nrows out = 181%nat /\ ncols out = 366%nat
       /\ cell out 0%nat 0%nat = Fin 2
       /\ cell out 180%nat 365%nat = Fin 2.
Proof.
  split; [reflexivity | split; [reflexivity |]].
  eexists. split; [reflexivity |]. cbn.
  repeat split; f_equal; lra.
Qed.

(** ** The latitude-weighted average *)

Section AreaAverage.

Variable np_cos : R -> R.

Lemma weighting_rows :
  weighting np_cos = map (fun i => Fin (weight np_cos i)) (seq 0 181).
Proof.
  unfold weighting, latitude, range. rewrite map_map. reflexivity.
Qed.

Lemma clip_index_le (n : nat) (i : Z) : (clip_index n i <= n)%nat.
Proof.
  unfold clip_index.
  destruct (if (i <? 0)%Z then (i + Z.of_nat n)%Z else i) as [| p | p]; cbn; lia.
Qed.

Lemma slice_bounds_le (n : nat) (start stop : option Z) :
  (fst (slice_bounds n start stop) <= n)%nat
  /\ (snd (slice_bounds n start stop) <= n)%nat.
Proof.
  unfold slice_bounds; cbn [fst snd].
  destruct start, stop; repeat split; try apply clip_index_le; lia.
Qed.

Lemma map_seq_shift {A : Type} (g : nat -> A) (lo n : nat) :
  forall s, map (fun i => g (lo + i)%nat) (seq s n) = map g (seq (lo + s) n).
Proof.
  induction n as [| n IH]; intros s; cbn [seq map].
  - reflexivity.
  - rewrite IH. do 2 f_equal. f_equal. lia.
Qed.

Lemma firstn_seq_min (n : nat) :
  forall s m, firstn n (seq s m) = seq s (Nat.min n m).
Proof.
  induction n as [| n IH]; intros s [| m]; cbn; try reflexivity.
  rewrite IH. reflexivity.
Qed.

(** The weights of the band [start:stop]. *)
Lemma band_weights (start stop : option Z) :
  let (lo, hi) := slice_bounds 181 start stop in
  getslice start stop (weighting np_cos)
  = map (fun i => Fin (weight np_cos i)) (seq lo (hi - lo)).
Proof.
  pose proof (slice_bounds_le 181 start stop) as [Hlo Hhi].
  assert (Hlen : length (weighting np_cos) = 181%nat).
  { rewrite weighting_rows, length_map, length_seq. reflexivity. }
  unfold getslice. rewrite Hlen.
  destruct (slice_bounds 181 start stop) as [lo hi]. cbn [fst snd] in *.
  rewrite weighting_rows, skipn_map, skipn_seq, firstn_map, firstn_seq_min.
  cbn [Nat.add]. rewrite Nat.min_l by lia. reflexivity.
Qed.

(** Column [j] of the masked band. *)
Lemma band_column (start stop : option Z) (F : ndarray2) (j : nat) :
  nrows F = 181%nat ->
  let (lo, hi) := slice_bounds 181 start stop in
  column (masked_invalid (getrows start stop F)) j
  = map (fun i => masked_cell (cell F i j)) (seq lo (hi - lo)).
Proof.
  intros HF. unfold column, getrows. rewrite HF.
  destruct (slice_bounds 181 start stop) as [lo hi].
  cbn [masked_invalid m_nrows m_cell nrows ncols cell].
  pose proof (map_seq_shift (fun i => masked_cell (cell F i j)) lo (hi - lo) 0) as Hs.
  rewrite Nat.add_0_r in Hs. rewrite <- Hs. reflexivity.
Qed.

Lemma zip_with_map {A B C D : Type} (h : B -> C -> D) (a : A -> B) (b : A -> C)
    (l : list A) :
  zip_with h (map a l) (map b l) = map (fun i => h (a i) (b i)) l.
Proof.
  induction l as [| x l IH]; cbn; [reflexivity | rewrite IH; reflexivity].
Qed.

Lemma all_masked_carried (f : nat -> float64) (g : nat -> R) (rows : list nat) :
  forallb is_masked (map (fun i => carried (f i) (g i)) rows)
  = match filter (fun i => isfinite (f i)) rows with [] => true | _ => false end.
Proof.
  induction rows as [| i rows IH]; cbn [map forallb filter]; [reflexivity |].
  unfold carried at 1. destruct (isfinite (f i)); cbn; [reflexivity | exact IH].
Qed.

Lemma filled_sum_carried (f : nat -> float64) (g : nat -> R) (rows : list nat) :
  fold_right fadd (Fin 0) (map filled0 (map (fun i => carried (f i) (g i)) rows))
  = Fin (Rsum (map g (filter (fun i => isfinite (f i)) rows))).
Proof.
  induction rows as [| i rows IH]; cbn [map fold_right filter]; [reflexivity |].
  rewrite IH. unfold carried. destruct (isfinite (f i)); cbn.
  - reflexivity.
  - rewrite Rplus_0_l. reflexivity.
Qed.

Lemma ma_sum_carried (f : nat -> float64) (g : nat -> R) (rows : list nat) :
  ma_sum (map (fun i => carried (f i) (g i)) rows)
  = match filter (fun i => isfinite (f i)) rows with
    | [] => Masked
    | _ => Unmasked (Fin (Rsum (map g (filter (fun i => isfinite (f i)) rows))))
    end.
Proof.
  unfold ma_sum. rewrite all_masked_carried, filled_sum_carried.
  destruct (filter (fun i => isfinite (f i)) rows); reflexivity.
Qed.

Lemma ma_true_divide_fin (num den : R) :
  ma_true_divide (Unmasked (Fin num)) (Unmasked (Fin den))
  = if Reqb den 0 then Masked else Unmasked (Fin (num / den)).
Proof.
  cbn. destruct (Reqb den 0); [| reflexivity].
  unfold inf_times. destruct (Rltb 0 num); [reflexivity |].
  destruct (Rltb num 0); reflexivity.
Qed.

(** One output entry of the average, for a column read off the rows [rows]
    and the weights of these rows: masked when no row is finite or the
    weights of the finite rows sum to zero, else their weighted mean. *)
Lemma average_column_rows (f : nat -> float64) (w : nat -> R) (rows : list nat) :
  average_column (map (fun i => masked_cell (f i)) rows) (map (fun i => Fin (w i)) rows)
  = match filter (fun i => isfinite (f i)) rows with
    | [] => Masked
    | _ =>
        let valid := filter (fun i => isfinite (f i)) rows in
        if Reqb (Rsum (map w valid)) 0 then Masked
        else Unmasked (Fin (Rsum (map (fun i => w i * value (f i)) valid)
                            / Rsum (map w valid)))
    end.
Proof.
  unfold average_column.
  rewrite zip_with_map.
  assert (Hw : forall i, weight_cell (masked_cell (f i)) (Fin (w i)) = carried (f i) (w i)).
  { intros i. unfold masked_cell, carried. destruct (isfinite (f i)); reflexivity. }
  rewrite (map_ext _ _ Hw).
  rewrite zip_with_map.
  assert (Hp : forall i,
             ma_multiply (masked_cell (f i)) (carried (f i) (w i))
             = carried (f i) (w i * value (f i))).
  { intros i. unfold masked_cell, carried.
    destruct (f i) as [| | | x]; cbn; try reflexivity.
    rewrite Rmult_comm. reflexivity. }
  rewrite (map_ext _ _ Hp).
  rewrite !ma_sum_carried.
  destruct (filter (fun i => isfinite (f i)) rows) as [| i0 valid]; [reflexivity |].
  apply ma_true_divide_fin.
Qed.

(** The average over a band of a field with 181 latitudes: it is returned,
    has one entry per column, and its entry [j] is the entry of
    [average_column_rows] for the rows of the band. *)
Lemma area_average_band_entries (start stop : option Z) (F : ndarray2) :
  nrows F = 181%nat ->
  let (lo, hi) := slice_bounds 181 start stop in
  area_average_band np_cos start stop F
  = Ok (map (fun j =>
              average_column
                (map (fun i => masked_cell (cell F i j)) (seq lo (hi - lo)))
                (map (fun i => Fin (weight np_cos i)) (seq lo (hi - lo))))
            (seq 0 (ncols F))).
Proof.
  intros HF.
  pose proof (band_weights start stop) as Hw.
  pose proof (fun j => band_column start stop F j HF) as Hc.
  unfold area_average_band, ma_average.
  assert (Hrows : m_nrows (masked_invalid (getrows start stop F))
                  = (snd (slice_bounds 181 start stop)
                     - fst (slice_bounds 181 start stop))%nat).
  { unfold getrows. rewrite HF.
    destruct (slice_bounds 181 start stop); reflexivity. }
  assert (Hcols : m_ncols (masked_invalid (getrows start stop F)) = ncols F).
  { unfold getrows. destruct (slice_bounds (nrows F) start stop); reflexivity. }
  rewrite Hrows, Hcols.
  destruct (slice_bounds 181 start stop) as [lo hi]. cbn [fst snd].
  rewrite Hw, length_map, length_seq, Nat.eqb_refl.
  f_equal. apply map_ext. intros j. rewrite Hc. reflexivity.
Qed.

End AreaAverage.

Lemma nth_error_map_seq {A : Type} (g : nat -> A) (n j : nat) :
  (j < n)%nat -> nth_error (map g (seq 0 n)) j = Some (g j).
Proof.
  intros Hj. rewrite nth_error_map, nth_error_seq.
  apply Nat.ltb_lt in Hj. rewrite Hj. reflexivity.
Qed.

Lemma band_bounds : slice_bounds 181 (Some 120%Z) None = (120%nat, 181%nat).
Proof. reflexivity. Qed.

(** The entry [j] of the 30N-90N average of a field with 181 latitudes. *)
Lemma omps_area_average_entry (np_cos : R -> R) (F : ndarray2) (j : nat) :
  nrows F = 181%nat ->
  (j < ncols F)%nat ->
  exists out,
    omps_area_average np_cos F = Ok out
    /\ length out = ncols F
    /\ nth_error out j
       = Some (average_column (map (fun i => masked_cell (cell F i j)) band)
                              (map (fun i => Fin (weight np_cos i)) band)).
Proof.
  intros HF Hj.
  pose proof (area_average_band_entries np_cos (Some 120%Z) None F HF) as H.
  rewrite band_bounds in H. change (seq 120 (181 - 120)) with band in H.
  unfold omps_area_average. rewrite H.
  eexists. split; [reflexivity | split].
  - rewrite length_map, length_seq. reflexivity.
  - rewrite (nth_error_map_seq _ _ j Hj). reflexivity.
Qed.

(** C1, as the code has it.  For a field with the 181 latitudes of the
    -90..90 axis the average over the band [120:] is returned without error
    and has one entry per column.  Its entry [j] is
    [sum(weight[i] * F[i]) / sum(weight[i])] over the band rows [i] at which
    [F[i]] is finite (NaN and both infinities are left out), with
    [weight[i] = cos(latitude[i] * pi/180)]; when no sample of the band is
    finite at [j] the entry is masked (the result is a masked array: the
    entry is not a NaN). *)
Theorem omps_area_average_weighted_mean (np_cos : R -> R) (F : ndarray2) (j : nat) :
  nrows F = 181%nat ->
  (j < ncols F)%nat ->
  exists out,
    omps_area_average np_cos F = Ok out
    /\ length out = ncols F
    /\ (finite_rows F band j = [] -> nth_error out j = Some Masked)
    /\ (Rsum (map (weight np_cos) (finite_rows F band j)) <> 0 ->
        nth_error out j
        = Some (Unmasked (Fin (weighted_mean np_cos F (finite_rows F band j) j)))).
Proof.
  intros HF Hj.
  destruct (omps_area_average_entry np_cos F j HF Hj) as (out & Hout & Hlen & Hnth).
  exists out. split; [exact Hout | split; [exact Hlen |]].
  rewrite Hnth, (average_column_rows (fun i => cell F i j) (weight np_cos) band).
  unfold weighted_mean, finite_rows.
  generalize (filter (fun i => isfinite (cell F i j)) band) as rows.
  intros rows. split.
  - intros Hnone. rewrite Hnone. reflexivity.
  - intros Hden. destruct rows as [| i0 rows].
    + unfold Rsum in Hden. cbn [map fold_right] in Hden. lra.
    + cbv zeta. apply Reqb_false in Hden. rewrite Hden. reflexivity.
Qed.

(** The cosine itself gives weights that are positive below the pole and
    zero at it; numpy's binary64 value at 90 degrees is about 6.1e-17. *)
Lemma exact_weight_nonneg (i : nat) : In i band -> 0 <= weight cos i.
Proof.
  unfold band. rewrite in_seq. intros Hi.
  unfold weight, np_deg2rad.
  assert (Hlo : 30 <= IZR (-90 + Z.of_nat i)) by (apply IZR_le; lia).
  assert (Hhi : IZR (-90 + Z.of_nat i) <= 90) by (apply IZR_le; lia).
  pose proof PI_RGT_0 as Hpi.
  apply cos_ge_0; nra.
Qed.

Lemma exact_weight_pos (i : nat) : (120 <= i < 180)%nat -> 0 < weight cos i.
Proof.
  intros Hi. unfold weight, np_deg2rad.
  assert (Hlo : 30 <= IZR (-90 + Z.of_nat i)) by (apply IZR_le; lia).
  assert (Hhi : IZR (-90 + Z.of_nat i) <= 89) by (apply IZR_le; lia).
  pose proof PI_RGT_0 as Hpi.
  apply cos_gt_0; nra.
Qed.

Lemma omps_area_average_weighted_mean_witness :
  nrows (constant_field 181 3 (Fin 2)) = 181%nat
  /\ (0 < ncols (constant_field 181 3 (Fin 2)))%nat
  /\ exists out,
       omps_area_average cos (constant_field 181 3 (Fin 2)) = Ok out
       /\ length out = ncols (constant_field 181 3 (Fin 2))
       /\ (finite_rows (constant_field 181 3 (Fin 2)) band 0 = [] ->
           nth_error out 0 = Some Masked)
       /\ (Rsum (map (weight cos) (finite_rows (constant_field 181 3 (Fin 2)) band 0)) <> 0 ->
           nth_error out 0
           = Some (Unmasked (Fin (weighted_mean cos (constant_field 181 3 (Fin 2))
                                    (finite_rows (constant_field 181 3 (Fin 2)) band 0) 0)))).
Proof.
  assert (Hr : nrows (constant_field 181 3 (Fin 2)) = 181%nat) by reflexivity.
  assert (Hc : (0 < ncols (constant_field 181 3 (Fin 2)))%nat)
    by (cbn [ncols constant_field]; lia).
  split; [exact Hr | split; [exact Hc |]].
  exact (omps_area_average_weighted_mean cos (constant_field 181 3 (Fin 2)) 0 Hr Hc).
Defined.

Lemma infinite_sample_finite_rows :
  filter (fun i => isfinite (cell infinite_sample i 0)) band = [121%nat]
  /\ filter (fun i => isfinite (cell infinite_sample i 1)) band = [].
Proof.
  split; reflexivity.
Qed.

Lemma infinite_sample_not_nan_rows :
  not_nan_rows infinite_sample band 0 = [120%nat; 121%nat]
  /\ not_nan_rows infinite_sample band 1 = [].
Proof.
  split; reflexivity.
Qed.

(** C1, as stated, fails.  On day 0 the infinity is not NaN, so the stated
    sum takes it and is infinite, while [masked_invalid] leaves it out and
    the average is 2; on day 1 every sample is NaN and the entry is masked,
    where the statement has a NaN. *)
Lemma omps_area_average_leaves_out_infinity :
  omps_area_average cos infinite_sample = Ok [Unmasked (Fin 2); Masked]
  /\ spec_weighted_average cos infinite_sample 0 = PInf
  /\ spec_weighted_average cos infinite_sample 1 = NaN.
Proof.
  destruct infinite_sample_finite_rows as [Hf0 Hf1].
  destruct infinite_sample_not_nan_rows as [Hn0 Hn1].
  assert (H120 : 0 < weight cos 120) by (apply exact_weight_pos; lia).
  assert (H121 : 0 < weight cos 121) by (apply exact_weight_pos; lia).
  split; [| split].
  - pose proof (area_average_band_entries cos (Some 120%Z) None infinite_sample eq_refl) as H.
    rewrite band_bounds in H. change (seq 120 (181 - 120)) with band in H.
    unfold omps_area_average. rewrite H.
    cbn [ncols infinite_sample seq map].
    rewrite !(average_column_rows (fun i => cell infinite_sample i _) (weight cos) band).
    rewrite Hf0, Hf1. cbv zeta. unfold Rsum. cbn [map fold_right].
    replace (Reqb (weight cos 121 + 0) 0) with false
      by (symmetry; apply Reqb_false; lra).
    change (cell infinite_sample 121 0) with (Fin 2). cbn [value].
    do 4 f_equal. field. lra.
  - unfold spec_weighted_average. rewrite Hn0. unfold fsum. cbn [map fold_right].
    change (cell infinite_sample 120 0) with PInf.
    change (cell infinite_sample 121 0) with (Fin 2).
    cbn [fmul fadd]. unfold inf_times.
    replace (Rltb 0 (weight cos 120)) with true by (symmetry; apply Rltb_true; lra).
    cbn [fadd fdiv].
    replace (Rltb (weight cos 120 + (weight cos 121 + 0)) 0) with false
      by (symmetry; apply Rltb_false; lra).
    reflexivity.
  - unfold spec_weighted_average. rewrite Hn1. reflexivity.
Qed.

(** ** Bounds of the weighted mean *)

Lemma Rsum_nonneg (w : nat -> R) (rows : list nat) :
  (forall i, In i rows -> 0 <= w i) -> 0 <= Rsum (map w rows).
Proof.
  induction rows as [| i rows IH]; intros Hw; cbn.
  - lra.
  - assert (0 <= w i) by (apply Hw; left; reflexivity).
    assert (0 <= Rsum (map w rows)) by (apply IH; intros k Hk; apply Hw; right; exact Hk).
    unfold Rsum in *. lra.
Qed.

Lemma Rsum_pos (w : nat -> R) (rows : list nat) (i0 : nat) :
  (forall i, In i rows -> 0 <= w i) ->
  In i0 rows -> 0 < w i0 ->
  0 < Rsum (map w rows).
Proof.
  induction rows as [| i rows IH]; intros Hw Hin Hpos; [contradiction |].
  cbn [map Rsum fold_right]. fold (Rsum (map w rows)).
  assert (Hi : 0 <= w i) by (apply Hw; left; reflexivity).
  assert (Hrest : 0 <= Rsum (map w rows))
    by (apply Rsum_nonneg; intros k Hk; apply Hw; right; exact Hk).
  destruct Hin as [-> | Hin]; [lra |].
  assert (0 < Rsum (map w rows))
    by (apply IH; [intros k Hk; apply Hw; right; exact Hk | exact Hin | exact Hpos]).
  lra.
Qed.

Lemma weighted_sum_bounds (w x : nat -> R) (lo hi : R) (rows : list nat) :
  (forall i, In i rows -> 0 <= w i) ->
  (forall i, In i rows -> lo <= x i <= hi) ->
  lo * Rsum (map w rows) <= Rsum (map (fun i => w i * x i) rows)
  /\ Rsum (map (fun i => w i * x i) rows) <= hi * Rsum (map w rows).
Proof.
  induction rows as [| i rows IH]; intros Hw Hx.
  - cbn. lra.
  - cbn [map Rsum fold_right].
    fold (Rsum (map w rows)). fold (Rsum (map (fun i => w i * x i) rows)).
    assert (Hi : 0 <= w i) by (apply Hw; left; reflexivity).
    assert (Hxi : lo <= x i <= hi) by (apply Hx; left; reflexivity).
    destruct IH as [IHlo IHhi].
    { intros k Hk; apply Hw; right; exact Hk. }
    { intros k Hk; apply Hx; right; exact Hk. }
    split; nra.
Qed.

Lemma quotient_bounds (n d lo hi : R) :
  0 < d -> lo * d <= n -> n <= hi * d -> lo <= n / d <= hi.
Proof.
  intros Hd Hlo Hhi.
  assert (Hn : n = (n / d) * d) by (field; lra).
  split; apply Rmult_le_reg_r with d; try exact Hd; rewrite <- Hn; assumption.
Qed.

(** A non-empty list of rows has a row of least and a row of greatest
    value. *)
Lemma least_row (x : nat -> R) (rows : list nat) :
  rows <> [] ->
  exists imin, In imin rows /\ forall i, In i rows -> x imin <= x i.
Proof.
  induction rows as [| i rows IH]; [congruence | intros _].
  destruct rows as [| k rows].
  - exists i. split; [left; reflexivity |].
    intros i' [<- | []]. lra.
  - destruct IH as (m & Hm & Hmin); [discriminate |].
    destruct (Rle_dec (x i) (x m)) as [Hle | Hgt].
    + exists i. split; [left; reflexivity |].
      intros i' [<- | Hin]; [lra |]. specialize (Hmin i' Hin). lra.
    + exists m. split; [right; exact Hm |].
      intros i' [<- | Hin]; [lra | apply Hmin; exact Hin].
Qed.

Lemma greatest_row (x : nat -> R) (rows : list nat) :
  rows <> [] ->
  exists imax, In imax rows /\ forall i, In i rows -> x i <= x imax.
Proof.
  intros Hne.
  destruct (least_row (fun i => - x i) rows Hne) as (m & Hm & Hmin).
  exists m. split; [exact Hm |].
  intros i Hi. specialize (Hmin i Hi). lra.
Qed.

(** The entry of the average for a column with a finite sample of positive
    weight, the weights being nowhere negative: an unmasked finite value
    between the least and the greatest finite value of the column. *)
Lemma average_column_bounded (f : nat -> float64) (w : nat -> R) (rows : list nat) :
  (forall i, In i rows -> 0 <= w i) ->
  (exists i, In i rows /\ isfinite (f i) = true /\ 0 < w i) ->
  exists v imin imax,
    average_column (map (fun i => masked_cell (f i)) rows) (map (fun i => Fin (w i)) rows)
    = Unmasked (Fin v)
    /\ In imin (filter (fun i => isfinite (f i)) rows)
    /\ In imax (filter (fun i => isfinite (f i)) rows)
    /\ (forall i, In i (filter (fun i => isfinite (f i)) rows) ->
          value (f imin) <= value (f i) <= value (f imax))
    /\ value (f imin) <= v <= value (f imax).
Proof.
  intros Hw (i0 & Hi0 & Hfin0 & Hpos0).
  rewrite average_column_rows.
  assert (Hin0 : In i0 (filter (fun i => isfinite (f i)) rows)).
  { apply filter_In. split; assumption. }
  assert (Hsub : forall i, In i (filter (fun i => isfinite (f i)) rows) -> In i rows).
  { intros i Hi. apply filter_In in Hi. apply Hi. }
  revert Hin0 Hsub.
  generalize (filter (fun i => isfinite (f i)) rows) as valid_rows.
  intros valid_rows Hin0 Hsub.
  assert (Hne : valid_rows <> []) by (intros ->; contradiction).
  assert (Hden : 0 < Rsum (map w valid_rows)).
  { apply (Rsum_pos _ valid_rows i0); [| exact Hin0 | exact Hpos0].
    intros i Hi. apply Hw, Hsub, Hi. }
  destruct (least_row (fun i => value (f i)) valid_rows Hne) as (imin & Himin & Hmin).
  destruct (greatest_row (fun i => value (f i)) valid_rows Hne) as (imax & Himax & Hmax).
  destruct (weighted_sum_bounds w (fun i => value (f i))
              (value (f imin)) (value (f imax)) valid_rows) as [Hlo Hhi].
  { intros i Hi. apply Hw, Hsub, Hi. }
  { intros i Hi. split; [apply Hmin | apply Hmax]; exact Hi. }
  exists (Rsum (map (fun i => w i * value (f i)) valid_rows) / Rsum (map w valid_rows)),
    imin, imax.
  split; [| split; [exact Himin | split; [exact Himax | split]]].
  - destruct valid_rows as [| r valid_rows]; [congruence |].
    cbv zeta.
    replace (Reqb (Rsum (map w (r :: valid_rows))) 0) with false
      by (symmetry; apply Reqb_false; lra).
    reflexivity.
  - intros i Hi. split; [apply Hmin | apply Hmax]; exact Hi.
  - apply quotient_bounds; assumption.
Qed.

(** C7, as the code has it.  For a field with 181 latitudes, an output index
    [j] at which at least one sample of the band is finite, and weights
    that are nowhere negative on the band and positive at one finite sample
    (numpy's binary64 weights are positive on the whole band), the entry [j]
    of the average is an unmasked finite value that lies between the least
    and the greatest of the finite values of the band at [j].  Arithmetic is
    exact. *)
Theorem omps_area_average_bounded (np_cos : R -> R) (F : ndarray2) (j : nat) :
  nrows F = 181%nat ->
  (j < ncols F)%nat ->
  (forall i, In i band -> 0 <= weight np_cos i) ->
  (exists i, In i band /\ isfinite (cell F i j) = true /\ 0 < weight np_cos i) ->
  exists out v imin imax,
    omps_area_average np_cos F = Ok out
    /\ nth_error out j = Some (Unmasked (Fin v))
    /\ In imin (finite_rows F band j)
    /\ In imax (finite_rows F band j)
    /\ (forall i, In i (finite_rows F band j) ->
          value (cell F imin j) <= value (cell F i j) <= value (cell F imax j))
    /\ value (cell F imin j) <= v <= value (cell F imax j).
Proof.
  intros HF Hj Hw Hone.
  destruct (omps_area_average_entry np_cos F j HF Hj) as (out & Hout & _ & Hnth).
  destruct (average_column_bounded (fun i => cell F i j) (weight np_cos) band Hw Hone)
    as (v & imin & imax & Hv & Himin & Himax & Hall & Hbound).
  exists out, v, imin, imax.
  split; [exact Hout |].
  split; [rewrite Hnth, Hv; reflexivity |].
  unfold finite_rows.
  split; [exact Himin | split; [exact Himax | split; [exact Hall | exact Hbound]]].
Qed.

Lemma omps_area_average_bounded_witness :
  nrows (constant_field 181 3 (Fin 2)) = 181%nat
  /\ (0 < ncols (constant_field 181 3 (Fin 2)))%nat
  /\ (forall i, In i band -> 0 <= weight cos i)
  /\ (exists i, In i band
        /\ isfinite (cell (constant_field 181 3 (Fin 2)) i 0) = true
        /\ 0 < weight cos i)
  /\ exists out v imin imax,
       omps_area_average cos (constant_field 181 3 (Fin 2)) = Ok out
       /\ nth_error out 0 = Some (Unmasked (Fin v))
       /\ In imin (finite_rows (constant_field 181 3 (Fin 2)) band 0)
       /\ In imax (finite_rows (constant_field 181 3 (Fin 2)) band 0)
       /\ (forall i, In i (finite_rows (constant_field 181 3 (Fin 2)) band 0) ->
             value (cell (constant_field 181 3 (Fin 2)) imin 0)
             <= value (cell (constant_field 181 3 (Fin 2)) i 0)
             <= value (cell (constant_field 181 3 (Fin 2)) imax 0))
       /\ value (cell (constant_field 181 3 (Fin 2)) imin 0) <= v
          <= value (cell (constant_field 181 3 (Fin 2)) imax 0).
Proof.
  assert (Hr : nrows (constant_field 181 3 (Fin 2)) = 181%nat) by reflexivity.
  assert (Hc : (0 < ncols (constant_field 181 3 (Fin 2)))%nat)
    by (cbn [ncols constant_field]; lia).
  assert (Hone : exists i, In i band
            /\ isfinite (cell (constant_field 181 3 (Fin 2)) i 0) = true
            /\ 0 < weight cos i).
  { exists 120%nat. split; [| split].
    - unfold band. apply in_seq. lia.
    - reflexivity.
    - apply exact_weight_pos. lia. }
  split; [exact Hr | split; [exact Hc | split; [exact exact_weight_nonneg |]]].
  split; [exact Hone |].
  exact (omps_area_average_bounded cos (constant_field 181 3 (Fin 2)) 0
           Hr Hc exact_weight_nonneg Hone).
Defined.

(** C7, as stated, fails when the only sample that is not NaN is an
    infinity: [masked_invalid] masks it with the NaNs, every sample of the
    band is masked and so is the entry; no finite value is returned. *)
Lemma omps_area_average_lone_infinity :
  In 120%nat band
  /\ isnan (cell lone_infinity 120 0) = false
  /\ omps_area_average cos lone_infinity = Ok [Masked].
Proof.
  split; [unfold band; apply in_seq; lia | split; [reflexivity |]].
  pose proof (area_average_band_entries cos (Some 120%Z) None lone_infinity eq_refl) as H.
  rewrite band_bounds in H. change (seq 120 (181 - 120)) with band in H.
  unfold omps_area_average. rewrite H.
  cbn [ncols lone_infinity seq map].
  rewrite (average_column_rows (fun i => cell lone_infinity i 0) (weight cos) band).
  assert (Hnone : filter (fun i => isfinite (cell lone_infinity i 0)) band = [])
    by reflexivity.
  rewrite Hnone. reflexivity.
Qed.

(** ** A band outside the axis *)

Lemma clip_index_120 (n : nat) : clip_index n 120 = Nat.min 120 n.
Proof. reflexivity. Qed.

Lemma band_weights_length (np_cos : R -> R) :
  length (getslice (Some 120%Z) None (weighting np_cos)) = 61%nat.
Proof.
  pose proof (band_weights np_cos (Some 120%Z) None) as H.
  rewrite band_bounds in H. rewrite H, length_map, length_seq. reflexivity.
Qed.

(** The slice [F[120:, :]] of any field. *)
Lemma getrows_band (F : ndarray2) :
  getrows (Some 120%Z) None F
  = {| nrows := nrows F - Nat.min 120 (nrows F);
       ncols := ncols F;
       cell := fun i j => cell F (Nat.min 120 (nrows F) + i) j |}.
Proof.
  unfold getrows, slice_bounds. rewrite clip_index_120. reflexivity.
Qed.

(** What the average over [120:] gives on a field of any height. *)
Lemma omps_area_average_outcome (np_cos : R -> R) (F : ndarray2) :
  omps_area_average np_cos F
  = if (nrows F =? 181)%nat
    then Ok (map (fun j =>
                   average_column (map (fun i => masked_cell (cell F i j)) band)
                                  (map (fun i => Fin (weight np_cos i)) band))
                 (seq 0 (ncols F)))
    else Raise ValueError.
Proof.
  destruct (Nat.eqb_spec (nrows F) 181) as [HF | HF].
  - pose proof (area_average_band_entries np_cos (Some 120%Z) None F HF) as H.
    rewrite band_bounds in H. change (seq 120 (181 - 120)) with band in H.
    exact H.
  - unfold omps_area_average, area_average_band, ma_average.
    rewrite band_weights_length, getrows_band.
    cbn [masked_invalid m_nrows nrows].
    destruct (Nat.eqb_spec 61 (nrows F - Nat.min 120 (nrows F))) as [Heq | Hneq];
      [lia | reflexivity].
Qed.

(** C8, as the code has it.  The scripts average over the one band [120:].
    The slice [F[120:, :]] raises nothing on any field: its start is clipped
    to the latitude axis, so the slice has [nrows F - 120] rows (none when
    the field has at most 120 latitudes) and its row [i] is the row
    [min(120, nrows F) + i] of the field.  The weights [weighting[120:]]
    number 61 whatever the field is.  The average itself is returned, with
    one entry per column, exactly when the field has 181 latitudes; on a
    field of any other height, the fields for which row 120 lies outside the
    axis included, [np.ma.average] raises ValueError on the length of the
    weights. *)
Theorem omps_area_average_needs_181_latitudes (np_cos : R -> R) (F : ndarray2) :
  nrows (getrows (Some 120%Z) None F) = (nrows F - 120)%nat
  /\ ncols (getrows (Some 120%Z) None F) = ncols F
  /\ (forall i j,
        cell (getrows (Some 120%Z) None F) i j = cell F (Nat.min 120 (nrows F) + i) j)
  /\ length (getslice (Some 120%Z) None (weighting np_cos)) = 61%nat
  /\ omps_area_average np_cos F
     = if (nrows F =? 181)%nat
       then Ok (map (fun j =>
                      average_column (map (fun i => masked_cell (cell F i j)) band)
                                     (map (fun i => Fin (weight np_cos i)) band))
                    (seq 0 (ncols F)))
       else Raise ValueError.
Proof.
  split; [rewrite getrows_band; cbn [nrows]; lia |].
  split; [rewrite getrows_band; reflexivity |].
  split; [intros i j; rewrite getrows_band; reflexivity |].
  split; [apply band_weights_length |].
  apply omps_area_average_outcome.
Qed.

(** C8, as stated, fails on a field for which the band lies outside the
    latitude axis.  On a field with 100 latitudes the slice [F[120:, :]] is
    clipped to no row at all and raises nothing, but the 61 weights do not
    have the length of that empty band and the average raises ValueError: no
    result is returned. *)
Lemma omps_area_average_short_field :
  nrows short_field = 100%nat
  /\ nrows (getrows (Some 120%Z) None short_field) = 0%nat
  /\ omps_area_average cos short_field = Raise ValueError.
Proof.
  split; [reflexivity | split; [reflexivity |]].
  rewrite omps_area_average_outcome. reflexivity.
Qed.

(** ** Figure8.py: which mask each 865 nm field gets *)

(** A field of the mask's shape multiplied by the mask of a reference. *)
Lemma masked_by (target reference : ndarray2) :
  has_mask_shape target = true ->
  has_mask_shape reference = true ->
  exists out,
    rbind (Figure4.mask reference) (np_multiply2 target) = Ok out
    /\ nrows out = 181%nat /\ ncols out = 366%nat
    /\ forall i j, cell out i j = fmul (cell target i j) (mask_value reference i j).
Proof.
  intros Ht Href.
  destruct (mask_ok reference Href) as (m & Hm & Hmr & Hmc & Hcell).
  assert (Hb : broadcasts_to_mask target = true).
  { unfold has_mask_shape in Ht. unfold broadcasts_to_mask.
    apply andb_prop in Ht. destruct Ht as [-> ->]. reflexivity. }
  destruct (np_multiply2_mask target m Hmr Hmc) as [_ Hok].
  destruct (Hok Hb) as (out & Hout & Hor & Hoc & Hocell).
  exists out. rewrite Hm. cbn [rbind].
  split; [exact Hout | split; [exact Hor | split; [exact Hoc |]]].
  intros i j. rewrite Hocell, Hcell.
  unfold has_mask_shape in Ht. apply andb_prop in Ht. destruct Ht as [Htr Htc].
  apply Nat.eqb_eq in Htr, Htc. unfold broadcast_index.
  rewrite Htr, Htc. reflexivity.
Qed.

(** The rows of the band that enter the average of a field with 181
    latitudes, counted from the start of the band. *)
Lemma support_spec (F : ndarray2) (i j : nat) :
  nrows F = 181%nat ->
  In i (Figure8.support F j)
  <-> (i < 61)%nat /\ isfinite (cell F (120 + i) j) = true.
Proof.
  intros HF. unfold Figure8.support, getrows. rewrite HF, band_bounds.
  cbn [masked_invalid m_nrows m_cell nrows ncols cell].
  change (181 - 120)%nat with 61%nat.
  rewrite filter_In, in_seq.
  destruct (isfinite (cell F (120 + i) j)); cbn; split; intros [H1 H2];
    split; try lia; try reflexivity; try discriminate.
Qed.

Lemma isfinite_masked (x : float64) (reference : ndarray2) (i j : nat) :
  isfinite x = true ->
  isfinite (fmul x (mask_value reference i j)) = negb (isnan (cell reference i j)).
Proof.
  intros Hx. destruct x as [| | | r]; try discriminate.
  unfold mask_value. destruct (isnan (cell reference i j)); reflexivity.
Qed.

(** C9, as the code has it.  The 865 nm SO2only field is multiplied by the
    mask of the 510 nm observations and the 865 nm SO2+ash field by the mask
    of the 869 nm observations.  At a band cell where both model fields are
    finite and exactly one of the two observation fields is NaN, exactly one
    of the two masked fields enters its average: the two supports differ
    there. *)
Theorem so2_only_865_masked_by_mask510 (d : Figure8.loaded) :
  has_mask_shape (Figure8.so2_ash_865 d) = true ->
  has_mask_shape (Figure8.so2_only_865 d) = true ->
  has_mask_shape (Figure8.omps_510 d) = true ->
  has_mask_shape (Figure8.omps_869 d) = true ->
  exists only ash,
    Figure8.so2_only_865_masked d = Ok only
    /\ Figure8.so2_ash_865_masked d = Ok ash
    /\ (forall i j,
          cell only i j
          = fmul (cell (Figure8.so2_only_865 d) i j) (mask_value (Figure8.omps_510 d) i j))
    /\ (forall i j,
          cell ash i j
          = fmul (cell (Figure8.so2_ash_865 d) i j) (mask_value (Figure8.omps_869 d) i j))
    /\ (forall i j,
          (i < 61)%nat ->
          isfinite (cell (Figure8.so2_only_865 d) (120 + i) j) = true ->
          isfinite (cell (Figure8.so2_ash_865 d) (120 + i) j) = true ->
          isnan (cell (Figure8.omps_510 d) (120 + i) j)
          <> isnan (cell (Figure8.omps_869 d) (120 + i) j) ->
          (In i (Figure8.support only j) <-> ~ In i (Figure8.support ash j))).
Proof.
  intros Hash Honly H510 H869.
  destruct (masked_by (Figure8.so2_only_865 d) (Figure8.omps_510 d) Honly H510)
    as (only & Ho & Hor & _ & Hocell).
  destruct (masked_by (Figure8.so2_ash_865 d) (Figure8.omps_869 d) Hash H869)
    as (ash & Ha & Har & _ & Hacell).
  exists only, ash.
  split; [exact Ho | split; [exact Ha | split; [exact Hocell | split; [exact Hacell |]]]].
  intros i j Hi Hfo Hfa Hdiff.
  rewrite (support_spec only i j Hor), (support_spec ash i j Har).
  rewrite Hocell, Hacell.
  rewrite (isfinite_masked _ (Figure8.omps_510 d) _ _ Hfo).
  rewrite (isfinite_masked _ (Figure8.omps_869 d) _ _ Hfa).
  destruct (isnan (cell (Figure8.omps_510 d) (120 + i) j));
    destruct (isnan (cell (Figure8.omps_869 d) (120 + i) j));
    cbn [negb]; try congruence; split.
  - intros [_ H]. discriminate.
  - intros H. exfalso. apply H. split; [exact Hi | reflexivity].
  - intros _ [_ H]. discriminate.
  - intros _. split; [exact Hi | reflexivity].
Qed.

Lemma so2_only_865_masked_by_mask510_witness :
  has_mask_shape (Figure8.so2_ash_865 (loaded_missing_at 120)) = true
  /\ has_mask_shape (Figure8.so2_only_865 (loaded_missing_at 120)) = true
  /\ has_mask_shape (Figure8.omps_510 (loaded_missing_at 120)) = true
  /\ has_mask_shape (Figure8.omps_869 (loaded_missing_at 120)) = true
  /\ exists only ash,
       Figure8.so2_only_865_masked (loaded_missing_at 120) = Ok only
       /\ Figure8.so2_ash_865_masked (loaded_missing_at 120) = Ok ash
       /\ (forall i j,
             cell only i j
             = fmul (cell (Figure8.so2_only_865 (loaded_missing_at 120)) i j)
                    (mask_value (Figure8.omps_510 (loaded_missing_at 120)) i j))
       /\ (forall i j,
             cell ash i j
             = fmul (cell (Figure8.so2_ash_865 (loaded_missing_at 120)) i j)
                    (mask_value (Figure8.omps_869 (loaded_missing_at 120)) i j))
       /\ (forall i j,
             (i < 61)%nat ->
             isfinite (cell (Figure8.so2_only_865 (loaded_missing_at 120)) (120 + i) j) = true ->
             isfinite (cell (Figure8.so2_ash_865 (loaded_missing_at 120)) (120 + i) j) = true ->
             isnan (cell (Figure8.omps_510 (loaded_missing_at 120)) (120 + i) j)
             <> isnan (cell (Figure8.omps_869 (loaded_missing_at 120)) (120 + i) j) ->
             (In i (Figure8.support only j) <-> ~ In i (Figure8.support ash j))).
Proof.
  assert (H1 : has_mask_shape (Figure8.so2_ash_865 (loaded_missing_at 120)) = true)
    by reflexivity.
  assert (H2 : has_mask_shape (Figure8.so2_only_865 (loaded_missing_at 120)) = true)
    by reflexivity.
  assert (H3 : has_mask_shape (Figure8.omps_510 (loaded_missing_at 120)) = true)
    by reflexivity.
  assert (H4 : has_mask_shape (Figure8.omps_869 (loaded_missing_at 120)) = true)
    by reflexivity.
  split; [exact H1 | split; [exact H2 | split; [exact H3 | split; [exact H4 |]]]].
  exact (so2_only_865_masked_by_mask510 (loaded_missing_at 120) H1 H2 H3 H4).
Defined.

Lemma add_120_nonzero (i : nat) : (120 + i =? 0)%nat = false.
Proof.
  apply Nat.eqb_neq. lia.
Qed.

(** C9, as stated, fails when the two observation fields differ only outside
    the band: below, the 510 nm field misses the cell at 90S on the first
    day and the 869 nm field misses nothing, so their NaN patterns differ,
    yet the rows that enter the two 865 nm averages are the same on every
    day, and so are the averages. *)
Lemma same_support_outside_band :
  isnan (cell (Figure8.omps_510 (loaded_missing_at 0)) 0 0) = true
  /\ isnan (cell (Figure8.omps_869 (loaded_missing_at 0)) 0 0) = false
  /\ exists only ash,
       Figure8.so2_only_865_masked (loaded_missing_at 0) = Ok only
       /\ Figure8.so2_ash_865_masked (loaded_missing_at 0) = Ok ash
       /\ (forall j, Figure8.support only j = Figure8.support ash j)
       /\ (forall np_cos,
             Figure8.so2_only_865_mean np_cos (loaded_missing_at 0)
             = Figure8.so2_ash_865_mean np_cos (loaded_missing_at 0)).
Proof.
  split; [reflexivity | split; [reflexivity |]].
  destruct (masked_by (constant_field 181 366 (Fin 1)) (missing_at 0) eq_refl eq_refl)
    as (only & Ho & Hor & Hoc & Hocell).
  destruct (masked_by (constant_field 181 366 (Fin 1)) (constant_field 181 366 (Fin 1))
              eq_refl eq_refl) as (ash & Ha & Har & Hac & Hacell).
  assert (Hsame : forall i j, cell only (120 + i) j = cell ash (120 + i) j).
  { intros i j. rewrite Hocell, Hacell. unfold mask_value.
    cbn [cell missing_at constant_field]. rewrite add_120_nonzero. reflexivity. }
  exists only, ash.
  split; [exact Ho | split; [exact Ha | split]].
  - intros j. unfold Figure8.support, getrows. rewrite Hor, Har, band_bounds.
    cbn [masked_invalid m_nrows m_cell nrows ncols cell].
    apply filter_ext. intros i. cbv beta.
    pose proof (Hsame i j) as Hij. rewrite Hij. reflexivity.
  - intros np_cos. unfold Figure8.so2_only_865_mean, Figure8.so2_ash_865_mean.
    change (Figure8.so2_only_865_masked (loaded_missing_at 0))
      with (rbind (Figure4.mask (missing_at 0)) (np_multiply2 (constant_field 181 366 (Fin 1)))).
    change (Figure8.so2_ash_865_masked (loaded_missing_at 0))
      with (rbind (Figure4.mask (constant_field 181 366 (Fin 1)))
              (np_multiply2 (constant_field 181 366 (Fin 1)))).
    rewrite Ho, Ha. cbn [rbind]. unfold omps_area_average.
    pose proof (area_average_band_entries np_cos (Some 120%Z) None only Hor) as H1.
    pose proof (area_average_band_entries np_cos (Some 120%Z) None ash Har) as H2.
    rewrite band_bounds in H1, H2. rewrite H1, H2, Hoc, Hac.
    f_equal. apply map_ext. intros j. f_equal.
    change (181 - 120)%nat with 61%nat.
    pose proof (map_seq_shift (fun i => masked_cell (cell only i j)) 120 61 0) as S1.
    pose proof (map_seq_shift (fun i => masked_cell (cell ash i j)) 120 61 0) as S2.
    rewrite Nat.add_0_r in S1, S2. rewrite <- S1, <- S2.
    apply map_ext. intros i. cbv beta.
    pose proof (Hsame i j) as Hij. rewrite Hij. reflexivity.
Qed.

(** * Further properties of the scripts *)

(** ** Figure3.py: bounds and edge cases of the estimator *)

Lemma argmin_scan_bound (l : list float64) :
  forall (i : nat) (mp : float64) (mi : nat),
    (mi < i)%nat -> (argmin_scan l i mp mi < i + length l)%nat.
Proof.
  induction l as [| x l IH]; intros i mp mi Hmi; cbn [argmin_scan length].
  - lia.
  - destruct (isnan mp); [lia |].
    destruct (negb (fgeb x mp)).
    + specialize (IH (S i) x i ltac:(lia)). lia.
    + specialize (IH (S i) mp mi ltac:(lia)). lia.
Qed.

Lemma np_argmin_bound (l : list float64) :
  l <> [] -> exists r, np_argmin l = Ok r /\ (r < length l)%nat.
Proof.
  destruct l as [| x l]; [congruence | intros _].
  exists (argmin_scan l 1 x 0). split; [reflexivity |].
  pose proof (argmin_scan_bound l 1 x 0 ltac:(lia)). cbn [length]. lia.
Qed.

Lemma nearest_index_bound (l : list float64) (v : float64) :
  l <> [] -> exists r, nearest_index l v = Ok r /\ (r < length l)%nat.
Proof.
  intros Hne. unfold nearest_index.
  destruct (np_argmin_bound (np_abs (np_subtract_scalar l v))) as (r & Hr & Hlt).
  - destruct l; [congruence | discriminate].
  - exists r. split; [exact Hr |].
    unfold np_abs, np_subtract_scalar in Hlt. rewrite !length_map in Hlt. exact Hlt.
Qed.

(** The estimate on a non-empty segment, whatever it holds (NaN and
    infinities included): an offset from 0 up to the last index. *)
Lemma estimate_on_segment_bound (seg : list float64) :
  seg <> [] ->
  exists k, estimate_on_segment seg = Ok (Z.of_nat k) /\ (k < length seg)%nat.
Proof.
  intros Hne. unfold estimate_on_segment.
  assert (Hlen : length (nan_to_zero seg) = length seg) by apply nan_to_zero_length.
  assert (Hc : nan_to_zero seg <> []).
  { intros Hnil. rewrite Hnil in Hlen. destruct seg; [congruence | discriminate]. }
  destruct (nan_to_zero seg) as [| c0 c] eqn:Hceq; [congruence |].
  cbn [np_nanmax rbind].
  destruct (nearest_index_bound (c0 :: c) (fold_left fmax c c0)) as (x_max & Hx & Hxlt);
    [discriminate |].
  rewrite Hx. cbn [rbind].
  assert (Hskip : skipn x_max (c0 :: c) <> []).
  { intros Hnil. apply (f_equal (@length float64)) in Hnil.
    rewrite length_skipn in Hnil. cbn [length] in Hnil, Hxlt. lia. }
  destruct (nearest_index_bound (skipn x_max (c0 :: c))
              (fdiv (fold_left fmax c c0) (Fin math_e)) Hskip) as (k & Hk & Hklt).
  rewrite Hk. cbn [rbind]. exists k. split.
  - f_equal. lia.
  - rewrite length_skipn in Hklt. lia.
Qed.

(** X1.  Called on an array of more than 20 samples, whatever they are (NaN
    and infinities included), [e_folding_time] returns an offset [k] with
    [0 <= k < len(data) - 20]; it raises only on shorter arrays. *)
Theorem e_folding_time_offset_bounds (h : heap) (data : ndarray) :
  valid h data ->
  (20 < size data)%nat ->
  exists k, fst (e_folding_time data h) = Ok (Z.of_nat k)
    /\ (k < size data - 20)%nat.
Proof.
  intros Hv Hsize.
  rewrite (e_folding_time_run h data Hv). cbn [fst].
  assert (Hlen : length (skipn 20 (contents h data)) = (size data - 20)%nat).
  { rewrite length_skipn, (contents_length h data Hv). reflexivity. }
  destruct (estimate_on_segment_bound (skipn 20 (contents h data))) as (k & Hk & Hklt).
  - intros Hnil. rewrite Hnil in Hlen. cbn [length] in Hlen. lia.
  - exists k. split; [exact Hk | lia].
Qed.

Lemma e_folding_time_offset_bounds_witness :
  valid [short_curve] (whole 23)
  /\ (20 < size (whole 23))%nat
  /\ exists k, fst (e_folding_time (whole 23) [short_curve]) = Ok (Z.of_nat k)
       /\ (k < size (whole 23) - 20)%nat.
Proof.
  assert (Hv : valid [short_curve] (whole 23)) by (unfold valid; cbn; lia).
  assert (Hs : (20 < size (whole 23))%nat) by (cbn [size whole]; lia).
  split; [exact Hv | split; [exact Hs |]].
  exact (e_folding_time_offset_bounds [short_curve] (whole 23) Hv Hs).
Defined.

Lemma nan_to_zero_all_missing (seg : list float64) :
  Forall (fun x => x = NaN \/ x = Fin 0) seg ->
  nan_to_zero seg = map Fin (repeat 0 (length seg)).
Proof.
  unfold nan_to_zero. induction seg as [| x seg IH]; intros Hall; [reflexivity |].
  inversion Hall as [| ? ? Hx Hrest]; subst.
  cbn [map put_where length repeat]. rewrite (IH Hrest).
  destruct Hx as [-> | ->]; reflexivity.
Qed.

(** X2.  When every sample from index 20 on is NaN or zero (a curve with no
    signal after the onset), [e_folding_time] returns 0: the NaNs are
    replaced by zero, the maximum is 0 at the first index and [0 / e] is
    nearest to that same sample. *)
Theorem e_folding_time_no_signal (h : heap) (data : ndarray) :
  valid h data ->
  (20 < size data)%nat ->
  Forall (fun x => x = NaN \/ x = Fin 0) (skipn 20 (contents h data)) ->
  fst (e_folding_time data h) = Ok 0%Z.
Proof.
  intros Hv Hsize Hall.
  rewrite (e_folding_time_run h data Hv). cbn [fst].
  assert (Hlen : length (skipn 20 (contents h data)) = (size data - 20)%nat).
  { rewrite length_skipn, (contents_length h data Hv). reflexivity. }
  pose proof (nan_to_zero_all_missing _ Hall) as Hseg. rewrite Hlen in Hseg.
  assert (Hnth : forall j, nth j (repeat 0 (size data - 20)) 0 = 0)
    by (intros j; apply nth_repeat).
  apply (estimate_on_segment_fin _ (repeat 0 (size data - 20)) 0 0 Hseg).
  - split; [rewrite repeat_length; lia | split].
    + intros j _. rewrite !Hnth. lra.
    + intros j Hj. lia.
  - split; [rewrite repeat_length; lia | split].
    + intros j _. rewrite !Hnth. lra.
    + intros j Hj. lia.
Qed.

Lemma e_folding_time_no_signal_witness :
  valid [repeat NaN 22] (whole 22)
  /\ (20 < size (whole 22))%nat
  /\ Forall (fun x => x = NaN \/ x = Fin 0) (skipn 20 (contents [repeat NaN 22] (whole 22)))
  /\ fst (e_folding_time (whole 22) [repeat NaN 22]) = Ok 0%Z.
Proof.
  assert (Hv : valid [repeat NaN 22] (whole 22)) by (unfold valid; cbn; lia).
  assert (Hs : (20 < size (whole 22))%nat) by (cbn [size whole]; lia).
  assert (Hall : Forall (fun x => x = NaN \/ x = Fin 0)
                   (skipn 20 (contents [repeat NaN 22] (whole 22)))).
  { repeat constructor. }
  split; [exact Hv | split; [exact Hs | split; [exact Hall |]]].
  exact (e_folding_time_no_signal [repeat NaN 22] (whole 22) Hv Hs Hall).
Defined.

Lemma nan_to_zero_scaled (c : R) (seg : list float64) :
  forall rs, nan_to_zero seg = map Fin rs ->
    nan_to_zero (map (fun x => fmul x (Fin c)) seg) = map Fin (map (fun r => r * c) rs).
Proof.
  unfold nan_to_zero. induction seg as [| x seg IH]; intros [| r rs] Hseg;
    cbn [map put_where] in *; try discriminate; [reflexivity |].
  injection Hseg as Hx Hrest. rewrite (IH rs Hrest).
  destruct x as [| | | a]; cbn in Hx |- *; try discriminate.
  - injection Hx as <-. rewrite Rmult_0_l. reflexivity.
  - injection Hx as ->. reflexivity.
Qed.

Lemma first_max_scaled (c : R) (rs : list R) (x : nat) :
  0 < c -> is_first_max rs x -> is_first_max (map (fun r => r * c) rs) x.
Proof.
  intros Hc (Hx & Hmax & Hfirst). unfold is_first_max. rewrite length_map.
  split; [exact Hx | split].
  - intros j Hj. rewrite !(nth_map_lt _ _ _ 0) by lia.
    specialize (Hmax j Hj). nra.
  - intros j Hj. rewrite !(nth_map_lt _ _ _ 0) by lia.
    specialize (Hfirst j Hj). nra.
Qed.

Lemma Rabs_scaled (c x v : R) : 0 < c -> Rabs (x * c - v * c / math_e) = Rabs (x - v / math_e) * c.
Proof.
  intros Hc. replace (x * c - v * c / math_e) with ((x - v / math_e) * c).
  - rewrite Rabs_mult, (Rabs_right c) by lra. reflexivity.
  - pose proof math_e_pos. field. lra.
Qed.

Lemma nearest_scaled (c : R) (rs : list R) (x_max x_e : nat) :
  0 < c ->
  (x_max < length rs)%nat ->
  is_nearest_from rs x_max (nth x_max rs 0 / math_e) x_e ->
  is_nearest_from (map (fun r => r * c) rs) x_max
    (nth x_max (map (fun r => r * c) rs) 0 / math_e) x_e.
Proof.
  intros Hc Hxm (Hx & Hmin & Hfirst). unfold is_nearest_from. rewrite length_map.
  rewrite (nth_map_lt _ rs x_max 0) by exact Hxm.
  split; [exact Hx | split].
  - intros j Hj. rewrite !(nth_map_lt _ _ _ 0) by lia.
    rewrite !Rabs_scaled by exact Hc. specialize (Hmin j Hj). nra.
  - intros j Hj. rewrite !(nth_map_lt _ _ _ 0) by lia.
    rewrite !Rabs_scaled by exact Hc. specialize (Hfirst j Hj). nra.
Qed.

(** X3.  The e-folding time does not depend on the unit of the curve: for a
    curve whose samples are NaN or finite, the curve multiplied by a positive
    constant gives the same result (or the same error). *)
Theorem e_folding_time_scale_invariant
    (h h' : heap) (data data' : ndarray) (rs : list R) (c : R) :
  valid h data ->
  valid h' data' ->
  0 < c ->
  nan_to_zero (skipn 20 (contents h data)) = map Fin rs ->
  contents h' data' = map (fun x => fmul x (Fin c)) (contents h data) ->
  fst (e_folding_time data' h') = fst (e_folding_time data h).
Proof.
  intros Hv Hv' Hc Hseg Hscaled.
  rewrite (e_folding_time_run h data Hv), (e_folding_time_run h' data' Hv').
  cbn [fst]. rewrite Hscaled, skipn_map.
  pose proof (nan_to_zero_scaled c _ rs Hseg) as Hseg'.
  destruct rs as [| r0 rs].
  - unfold estimate_on_segment. rewrite Hseg, Hseg'. reflexivity.
  - destruct (first_max_exists (r0 :: rs)) as (x_max & Hmax); [discriminate |].
    destruct (nearest_index_from_exists (r0 :: rs) x_max (nth x_max (r0 :: rs) 0 / math_e))
      as (x_e & Hnear).
    { apply Hmax. }
    rewrite (estimate_on_segment_fin _ (r0 :: rs) x_max x_e Hseg Hmax Hnear).
    apply (estimate_on_segment_fin _ _ x_max x_e Hseg').
    + apply first_max_scaled; assumption.
    + apply nearest_scaled; [exact Hc | apply Hmax | exact Hnear].
Qed.

Lemma e_folding_time_scale_invariant_witness :
  valid [short_curve] (whole 23)
  /\ valid [short_curve_scaled] (whole 23)
  /\ 0 < 1000
  /\ nan_to_zero (skipn 20 (contents [short_curve] (whole 23))) = map Fin [3; 0; 1]
  /\ contents [short_curve_scaled] (whole 23)
     = map (fun x => fmul x (Fin 1000)) (contents [short_curve] (whole 23))
  /\ fst (e_folding_time (whole 23) [short_curve_scaled])
     = fst (e_folding_time (whole 23) [short_curve]).
Proof.
  assert (Hv : valid [short_curve] (whole 23)) by (unfold valid; cbn; lia).
  assert (Hv' : valid [short_curve_scaled] (whole 23)) by (unfold valid; cbn; lia).
  assert (Hc : 0 < 1000) by lra.
  assert (Hseg : nan_to_zero (skipn 20 (contents [short_curve] (whole 23)))
                 = map Fin [3; 0; 1]) by reflexivity.
  assert (Hs : contents [short_curve_scaled] (whole 23)
               = map (fun x => fmul x (Fin 1000)) (contents [short_curve] (whole 23)))
    by reflexivity.
  split; [exact Hv | split; [exact Hv' | split; [exact Hc | split; [exact Hseg |]]]].
  split; [exact Hs |].
  exact (e_folding_time_scale_invariant [short_curve] [short_curve_scaled]
           (whole 23) (whole 23) [3; 0; 1] 1000 Hv Hv' Hc Hseg Hs).
Defined.

Lemma argmin_scan_nan (l : list float64) (i mi : nat) :
  argmin_scan l i NaN mi = mi.
Proof.
  destruct l; reflexivity.
Qed.

Lemma argmin_scan_hits_nan (rest : list float64) (pre : list R) :
  forall (i : nat) (m : R) (mi : nat),
    argmin_scan (map Fin pre ++ NaN :: rest) i (Fin m) mi = (i + length pre)%nat.
Proof.
  induction pre as [| x pre IH]; intros i m mi; cbn [map app argmin_scan length isnan].
  - unfold fgeb. cbn [isnan negb andb]. rewrite argmin_scan_nan. lia.
  - destruct (negb (fgeb (Fin x) (Fin m))); rewrite IH; lia.
Qed.

(** X4.  [find_nearest] on an array that holds a NaN returns the index of the
    first NaN, whatever the value looked for: the distance to a NaN is NaN,
    and [argmin] takes a NaN for the minimum.  (This is what the NaN-to-zero
    replacement in [e_folding_time] keeps away from the search.) *)
Theorem find_nearest_first_nan
    (h : heap) (array : ndarray) (pre : list R) (rest : list float64) (v : R) :
  contents h array = map Fin pre ++ NaN :: rest ->
  fst (find_nearest array (Fin v) h) = Ok (length pre).
Proof.
  intros Hc. unfold find_nearest, bind, read, lift. rewrite Hc. cbn [fst].
  unfold np_abs, np_subtract_scalar. rewrite !map_app, !map_map.
  cbn [map fsub fadd fneg fabs].
  destruct pre as [| x pre]; cbn [map app np_argmin length].
  - rewrite argmin_scan_nan. reflexivity.
  - f_equal.
    pose proof (argmin_scan_hits_nan
                  (map (fun y => fabs (fsub y (Fin v))) rest)
                  (map (fun y => Rabs (y - v)) pre) 1 (Rabs (x - v)) 0) as H.
    rewrite map_map, length_map in H. exact H.
Qed.

Lemma find_nearest_first_nan_witness :
  contents [[Fin 4; Fin 1; NaN; Fin 1]] (whole 4) = map Fin [4; 1] ++ NaN :: [Fin 1]
  /\ fst (find_nearest (whole 4) (Fin 1) [[Fin 4; Fin 1; NaN; Fin 1]]) = Ok (length [4; 1]).
Proof.
  assert (Hc : contents [[Fin 4; Fin 1; NaN; Fin 1]] (whole 4)
               = map Fin [4; 1] ++ NaN :: [Fin 1]) by reflexivity.
  split; [exact Hc |].
  exact (find_nearest_first_nan [[Fin 4; Fin 1; NaN; Fin 1]] (whole 4) [4; 1] [Fin 1] 1 Hc).
Defined.

(** ** Figure4.py and Figure8.py: what the masked fields keep *)

Lemma isnan_masked (x : float64) (reference : ndarray2) (i j : nat) :
  isnan (fmul x (mask_value reference i j)) = (isnan x || isnan (cell reference i j))%bool.
Proof.
  unfold mask_value. destruct (isnan (cell reference i j)).
  - rewrite fmul_nan_r, Bool.orb_true_r. reflexivity.
  - rewrite fmul_one_r, Bool.orb_false_r. reflexivity.
Qed.

Lemma isfinite_masked_cell (x : float64) (reference : ndarray2) (i j : nat) :
  isfinite (fmul x (mask_value reference i j))
  = (isfinite x && negb (isnan (cell reference i j)))%bool.
Proof.
  unfold mask_value. destruct (isnan (cell reference i j)).
  - rewrite fmul_nan_r, Bool.andb_false_r. reflexivity.
  - rewrite fmul_one_r, Bool.andb_true_r. reflexivity.
Qed.

Lemma mask_value_idempotent (x : float64) (reference : ndarray2) (i j : nat) :
  fmul (fmul x (mask_value reference i j)) (mask_value reference i j)
  = fmul x (mask_value reference i j).
Proof.
  unfold mask_value. destruct (isnan (cell reference i j)).
  - rewrite !fmul_nan_r. reflexivity.
  - rewrite !fmul_one_r. reflexivity.
Qed.

(** X5.  The missing cells of a masked field are those of the model and
    those of the observations together: with both fields 181 x 366, an output
    cell is NaN exactly when the model cell or the observation cell is NaN
    (an infinite cell is not made NaN, and no NaN is lost). *)
Theorem masked_field_nan_pattern (so2_ash_omps omps : ndarray2) :
  has_mask_shape so2_ash_omps = true ->
  has_mask_shape omps = true ->
  exists out,
    Figure4.so2_ash_omps_limits so2_ash_omps omps = Ok out
    /\ forall i j,
         isnan (cell out i j)
         = (isnan (cell so2_ash_omps i j) || isnan (cell omps i j))%bool.
Proof.
  intros Ht Href.
  destruct (masked_by so2_ash_omps omps Ht Href) as (out & Hout & _ & _ & Hcell).
  exists out. split; [exact Hout |].
  intros i j. rewrite Hcell. apply isnan_masked.
Qed.

Lemma masked_field_nan_pattern_witness :
  has_mask_shape (constant_field 181 366 (Fin 2)) = true
  /\ has_mask_shape (missing_at 120) = true
  /\ exists out,
       Figure4.so2_ash_omps_limits (constant_field 181 366 (Fin 2)) (missing_at 120) = Ok out
       /\ forall i j,
            isnan (cell out i j)
            = (isnan (cell (constant_field 181 366 (Fin 2)) i j)
               || isnan (cell (missing_at 120) i j))%bool.
Proof.
  assert (Ht : has_mask_shape (constant_field 181 366 (Fin 2)) = true) by reflexivity.
  assert (Hr : has_mask_shape (missing_at 120) = true) by reflexivity.
  split; [exact Ht | split; [exact Hr |]].
  exact (masked_field_nan_pattern (constant_field 181 366 (Fin 2)) (missing_at 120) Ht Hr).
Defined.

(** X6.  Masking is idempotent: a field masked with the observations and
    masked again with the same observations is, cell by cell, the field
    masked once. *)
Theorem masking_idempotent (so2_ash_omps omps : ndarray2) :
  has_mask_shape so2_ash_omps = true ->
  has_mask_shape omps = true ->
  exists once twice,
    Figure4.so2_ash_omps_limits so2_ash_omps omps = Ok once
    /\ Figure4.so2_ash_omps_limits once omps = Ok twice
    /\ nrows twice = nrows once /\ ncols twice = ncols once
    /\ forall i j, cell twice i j = cell once i j.
Proof.
  intros Ht Href.
  destruct (masked_by so2_ash_omps omps Ht Href) as (once & Hone & Hr1 & Hc1 & Hcell1).
  assert (Hshape : has_mask_shape once = true).
  { unfold has_mask_shape. rewrite Hr1, Hc1. reflexivity. }
  destruct (masked_by once omps Hshape Href) as (twice & Htwo & Hr2 & Hc2 & Hcell2).
  exists once, twice.
  split; [exact Hone | split; [exact Htwo |]].
  split; [congruence | split; [congruence |]].
  intros i j. rewrite Hcell2, Hcell1. apply mask_value_idempotent.
Qed.

Lemma masking_idempotent_witness :
  has_mask_shape (constant_field 181 366 (Fin 2)) = true
  /\ has_mask_shape (missing_at 120) = true
  /\ exists once twice,
       Figure4.so2_ash_omps_limits (constant_field 181 366 (Fin 2)) (missing_at 120) = Ok once
       /\ Figure4.so2_ash_omps_limits once (missing_at 120) = Ok twice
       /\ nrows twice = nrows once /\ ncols twice = ncols once
       /\ forall i j, cell twice i j = cell once i j.
Proof.
  assert (Ht : has_mask_shape (constant_field 181 366 (Fin 2)) = true) by reflexivity.
  assert (Hr : has_mask_shape (missing_at 120) = true) by reflexivity.
  split; [exact Ht | split; [exact Hr |]].
  exact (masking_idempotent (constant_field 181 366 (Fin 2)) (missing_at 120) Ht Hr).
Defined.

(** X7.  In Figure 8 the 865 nm SO2only field is multiplied by [mask510]
    where its SO2+ash counterpart gets [mask869].  When the 510 nm and the
    869 nm observations miss the same cells of the grid this makes no
    difference: the field is, cell by cell, what [so2_only_865 * mask869]
    is. *)
Theorem so2_only_865_mask_choice_harmless (d : Figure8.loaded) :
  has_mask_shape (Figure8.so2_only_865 d) = true ->
  has_mask_shape (Figure8.omps_510 d) = true ->
  has_mask_shape (Figure8.omps_869 d) = true ->
  (forall i j, (i < 181)%nat -> (j < 366)%nat ->
     isnan (cell (Figure8.omps_510 d) i j) = isnan (cell (Figure8.omps_869 d) i j)) ->
  exists only with869,
    Figure8.so2_only_865_masked d = Ok only
    /\ rbind (Figure8.mask869 d) (np_multiply2 (Figure8.so2_only_865 d)) = Ok with869
    /\ nrows only = nrows with869 /\ ncols only = ncols with869
    /\ forall i j, (i < 181)%nat -> (j < 366)%nat -> cell only i j = cell with869 i j.
Proof.
  intros Honly H510 H869 Hsame.
  destruct (masked_by (Figure8.so2_only_865 d) (Figure8.omps_510 d) Honly H510)
    as (only & Ho & Hor & Hoc & Hocell).
  destruct (masked_by (Figure8.so2_only_865 d) (Figure8.omps_869 d) Honly H869)
    as (alt & Ha & Har & Hac & Hacell).
  exists only, alt.
  split; [exact Ho | split; [exact Ha |]].
  split; [congruence | split; [congruence |]].
  intros i j Hi Hj. rewrite Hocell, Hacell. unfold mask_value.
  rewrite (Hsame i j Hi Hj). reflexivity.
Qed.

Lemma so2_only_865_mask_choice_harmless_witness :
  has_mask_shape (Figure8.so2_only_865 (loaded_same_gaps 120)) = true
  /\ has_mask_shape (Figure8.omps_510 (loaded_same_gaps 120)) = true
  /\ has_mask_shape (Figure8.omps_869 (loaded_same_gaps 120)) = true
  /\ (forall i j, (i < 181)%nat -> (j < 366)%nat ->
        isnan (cell (Figure8.omps_510 (loaded_same_gaps 120)) i j)
        = isnan (cell (Figure8.omps_869 (loaded_same_gaps 120)) i j))
  /\ exists only with869,
       Figure8.so2_only_865_masked (loaded_same_gaps 120) = Ok only
       /\ rbind (Figure8.mask869 (loaded_same_gaps 120))
            (np_multiply2 (Figure8.so2_only_865 (loaded_same_gaps 120))) = Ok with869
       /\ nrows only = nrows with869 /\ ncols only = ncols with869
       /\ forall i j, (i < 181)%nat -> (j < 366)%nat -> cell only i j = cell with869 i j.
Proof.
  assert (H1 : has_mask_shape (Figure8.so2_only_865 (loaded_same_gaps 120)) = true)
    by reflexivity.
  assert (H2 : has_mask_shape (Figure8.omps_510 (loaded_same_gaps 120)) = true)
    by reflexivity.
  assert (H3 : has_mask_shape (Figure8.omps_869 (loaded_same_gaps 120)) = true)
    by reflexivity.
  assert (H4 : forall i j, (i < 181)%nat -> (j < 366)%nat ->
             isnan (cell (Figure8.omps_510 (loaded_same_gaps 120)) i j)
             = isnan (cell (Figure8.omps_869 (loaded_same_gaps 120)) i j)).
  { intros i j _ _.
    cbn [cell Figure8.omps_510 Figure8.omps_869 loaded_same_gaps missing_at missing_at_869].
    destruct ((i =? 120)%nat && (j =? 0)%nat)%bool; reflexivity. }
  split; [exact H1 | split; [exact H2 | split; [exact H3 | split; [exact H4 |]]]].
  exact (so2_only_865_mask_choice_harmless (loaded_same_gaps 120) H1 H2 H3 H4).
Defined.

(** ** The average of a masked field *)

Lemma Rsum_map_ext_in (f g : nat -> R) (rows : list nat) :
  (forall i, In i rows -> f i = g i) -> Rsum (map f rows) = Rsum (map g rows).
Proof.
  intros H. f_equal. apply map_ext_in. exact H.
Qed.

(** The entry of the average for a column [g] that is the column [f]
    where [p] holds and not finite elsewhere. *)
Lemma average_column_restricted
    (f g : nat -> float64) (p : nat -> bool) (w : nat -> R) (rows : list nat) :
  (forall i, isfinite (g i) = (isfinite (f i) && p i)%bool) ->
  (forall i, p i = true -> g i = f i) ->
  (filter (fun i => isfinite (f i) && p i)%bool rows = [] ->
   average_column (map (fun i => masked_cell (g i)) rows) (map (fun i => Fin (w i)) rows)
   = Masked)
  /\ (Rsum (map w (filter (fun i => isfinite (f i) && p i)%bool rows)) <> 0 ->
      average_column (map (fun i => masked_cell (g i)) rows) (map (fun i => Fin (w i)) rows)
      = Unmasked (Fin (Rsum (map (fun i => w i * value (f i))
                               (filter (fun i => isfinite (f i) && p i)%bool rows))
                       / Rsum (map w (filter (fun i => isfinite (f i) && p i)%bool rows))))).
Proof.
  intros Hfin Hval.
  rewrite (average_column_rows g w rows). cbv zeta.
  assert (Hrows : filter (fun i => isfinite (g i)) rows
                  = filter (fun i => isfinite (f i) && p i)%bool rows).
  { apply filter_ext. exact Hfin. }
  rewrite Hrows.
  assert (Hsum : Rsum (map (fun i => w i * value (g i))
                         (filter (fun i => isfinite (f i) && p i)%bool rows))
                 = Rsum (map (fun i => w i * value (f i))
                           (filter (fun i => isfinite (f i) && p i)%bool rows))).
  { apply Rsum_map_ext_in. intros i Hi.
    apply filter_In in Hi. destruct Hi as [_ Hi].
    apply andb_prop in Hi. destruct Hi as [_ Hp].
    rewrite (Hval i Hp). reflexivity. }
  rewrite Hsum. clear Hrows Hsum.
  generalize (filter (fun i => isfinite (f i) && p i)%bool rows) as v. intros v. split.
  - intros Hnone. rewrite Hnone. reflexivity.
  - intros Hden. destruct v as [| i0 v].
    + unfold Rsum in Hden. cbn [map fold_right] in Hden. lra.
    + apply Reqb_false in Hden. rewrite Hden. reflexivity.
Qed.

(** X8.  The average of the masked 865 nm SO2only field of Figure 8 is the
    weighted mean of the model field itself over the band rows at which the
    model is finite and the 510 nm observation is not NaN: masking by NaN
    and averaging with [masked_invalid] restrict the model to the cells the
    observations cover.  Days without any such row give a masked entry. *)
Theorem so2_only_865_mean_over_common_rows
    (np_cos : R -> R) (d : Figure8.loaded) (j : nat) :
  has_mask_shape (Figure8.so2_only_865 d) = true ->
  has_mask_shape (Figure8.omps_510 d) = true ->
  (j < 366)%nat ->
  exists out,
    Figure8.so2_only_865_mean np_cos d = Ok out
    /\ length out = 366%nat
    /\ (common_rows (Figure8.so2_only_865 d) (Figure8.omps_510 d) band j = [] ->
        nth_error out j = Some Masked)
    /\ (Rsum (map (weight np_cos)
                (common_rows (Figure8.so2_only_865 d) (Figure8.omps_510 d) band j)) <> 0 ->
        nth_error out j
        = Some (Unmasked (Fin (weighted_mean np_cos (Figure8.so2_only_865 d)
                                 (common_rows (Figure8.so2_only_865 d)
                                    (Figure8.omps_510 d) band j) j)))).
Proof.
  intros Hm Ho Hj.
  destruct (masked_by (Figure8.so2_only_865 d) (Figure8.omps_510 d) Hm Ho)
    as (only & Honly & Hr & Hc & Hcell).
  assert (Hj' : (j < ncols only)%nat) by (rewrite Hc; exact Hj).
  destruct (omps_area_average_entry np_cos only j Hr Hj') as (out & Hout & Hlen & Hnth).
  destruct (average_column_restricted
              (fun i => cell (Figure8.so2_only_865 d) i j)
              (fun i => cell only i j)
              (fun i => negb (isnan (cell (Figure8.omps_510 d) i j)))
              (weight np_cos) band) as [Hnone Hsome].
  { intros i. rewrite Hcell. apply isfinite_masked_cell. }
  { intros i Hp. rewrite Hcell. unfold mask_value.
    destruct (isnan (cell (Figure8.omps_510 d) i j)); [discriminate |].
    apply fmul_one_r. }
  exists out. unfold common_rows, weighted_mean.
  split; [| split; [congruence | split]].
  - unfold Figure8.so2_only_865_mean, Figure8.so2_only_865_masked, Figure8.mask510.
    unfold Figure4.mask in Honly. rewrite Honly. exact Hout.
  - intros Hempty. rewrite Hnth, (Hnone Hempty). reflexivity.
  - intros Hden. rewrite Hnth, (Hsome Hden). reflexivity.
Qed.

Lemma so2_only_865_mean_over_common_rows_witness :
  has_mask_shape (Figure8.so2_only_865 (loaded_missing_at 120)) = true
  /\ has_mask_shape (Figure8.omps_510 (loaded_missing_at 120)) = true
  /\ (0 < 366)%nat
  /\ exists out,
       Figure8.so2_only_865_mean cos (loaded_missing_at 120) = Ok out
       /\ length out = 366%nat
       /\ (common_rows (Figure8.so2_only_865 (loaded_missing_at 120))
             (Figure8.omps_510 (loaded_missing_at 120)) band 0 = [] ->
           nth_error out 0 = Some Masked)
       /\ (Rsum (map (weight cos)
                   (common_rows (Figure8.so2_only_865 (loaded_missing_at 120))
                      (Figure8.omps_510 (loaded_missing_at 120)) band 0)) <> 0 ->
           nth_error out 0
           = Some (Unmasked (Fin (weighted_mean cos
                                    (Figure8.so2_only_865 (loaded_missing_at 120))
                                    (common_rows (Figure8.so2_only_865 (loaded_missing_at 120))
                                       (Figure8.omps_510 (loaded_missing_at 120)) band 0) 0)))).
Proof.
  assert (H1 : has_mask_shape (Figure8.so2_only_865 (loaded_missing_at 120)) = true)
    by reflexivity.
  assert (H2 : has_mask_shape (Figure8.omps_510 (loaded_missing_at 120)) = true)
    by reflexivity.
  assert (H3 : (0 < 366)%nat) by lia.
  split; [exact H1 | split; [exact H2 | split; [exact H3 |]]].
  exact (so2_only_865_mean_over_common_rows cos (loaded_missing_at 120) 0 H1 H2 H3).
Defined.

(** ** The average of a constant field, and Figure5.py's NaN fill *)

Lemma filter_all {A : Type} (p : A -> bool) (l : list A) :
  (forall x, In x l -> p x = true) -> filter p l = l.
Proof.
  induction l as [| x l IH]; intros H; cbn [filter]; [reflexivity |].
  rewrite (H x (or_introl eq_refl)), IH; [reflexivity |].
  intros y Hy. apply H. right. exact Hy.
Qed.

Lemma Rsum_scaled (w : nat -> R) (c : R) (rows : list nat) :
  Rsum (map (fun i => w i * c) rows) = Rsum (map w rows) * c.
Proof.
  induction rows as [| i rows IH]; cbn [map Rsum fold_right].
  - lra.
  - fold (Rsum (map (fun i => w i * c) rows)). fold (Rsum (map w rows)).
    rewrite IH. lra.
Qed.

(** The two cases of an entry of the average, over any list of rows. *)
Lemma average_column_cases (f : nat -> float64) (w : nat -> R) (rows : list nat) :
  (filter (fun i => isfinite (f i)) rows = [] ->
   average_column (map (fun i => masked_cell (f i)) rows) (map (fun i => Fin (w i)) rows)
   = Masked)
  /\ (Rsum (map w (filter (fun i => isfinite (f i)) rows)) <> 0 ->
      average_column (map (fun i => masked_cell (f i)) rows) (map (fun i => Fin (w i)) rows)
      = Unmasked (Fin (Rsum (map (fun i => w i * value (f i))
                               (filter (fun i => isfinite (f i)) rows))
                       / Rsum (map w (filter (fun i => isfinite (f i)) rows))))).
Proof.
  rewrite (average_column_rows f w rows). cbv zeta.
  generalize (filter (fun i => isfinite (f i)) rows) as v. intros v. split.
  - intros Hnone. rewrite Hnone. reflexivity.
  - intros Hden. destruct v as [| i0 v].
    + unfold Rsum in Hden. cbn [map fold_right] in Hden. lra.
    + apply Reqb_false in Hden. rewrite Hden. reflexivity.
Qed.

Lemma average_column_constant (f : nat -> float64) (w : nat -> R) (c : R) (rows : list nat) :
  (forall i, In i rows -> f i = Fin c) ->
  Rsum (map w rows) <> 0 ->
  average_column (map (fun i => masked_cell (f i)) rows) (map (fun i => Fin (w i)) rows)
  = Unmasked (Fin c).
Proof.
  intros Hconst Hden.
  assert (Hrows : filter (fun i => isfinite (f i)) rows = rows).
  { apply filter_all. intros i Hi. rewrite (Hconst i Hi). reflexivity. }
  destruct (average_column_cases f w rows) as [_ Hsome].
  rewrite Hrows in Hsome. rewrite (Hsome Hden).
  assert (Hnum : Rsum (map (fun i => w i * value (f i)) rows) = Rsum (map w rows) * c).
  { rewrite <- Rsum_scaled. apply Rsum_map_ext_in.
    intros i Hi. rewrite (Hconst i Hi). reflexivity. }
  rewrite Hnum. do 2 f_equal. field. exact Hden.
Qed.

(** X9.  The average of a field that has the same finite value [c] on the
    whole band on some day is [c] on that day (in exact arithmetic), as soon
    as the weights of the band do not sum to zero. *)
Theorem omps_area_average_constant (np_cos : R -> R) (F : ndarray2) (c : R) (j : nat) :
  nrows F = 181%nat ->
  (j < ncols F)%nat ->
  (forall i, In i band -> cell F i j = Fin c) ->
  Rsum (map (weight np_cos) band) <> 0 ->
  exists out,
    omps_area_average np_cos F = Ok out
    /\ nth_error out j = Some (Unmasked (Fin c)).
Proof.
  intros HF Hj Hconst Hden.
  destruct (omps_area_average_entry np_cos F j HF Hj) as (out & Hout & _ & Hnth).
  exists out. split; [exact Hout |].
  rewrite Hnth.
  rewrite (average_column_constant (fun i => cell F i j) (weight np_cos) c band Hconst Hden).
  reflexivity.
Qed.

Lemma exact_weights_sum_pos : 0 < Rsum (map (weight cos) band).
Proof.
  apply (Rsum_pos (weight cos) band 120).
  - exact exact_weight_nonneg.
  - unfold band. apply in_seq. lia.
  - apply exact_weight_pos. lia.
Qed.

Lemma omps_area_average_constant_witness :
  nrows (constant_field 181 10 (Fin 2)) = 181%nat
  /\ (0 < ncols (constant_field 181 10 (Fin 2)))%nat
  /\ (forall i, In i band -> cell (constant_field 181 10 (Fin 2)) i 0 = Fin 2)
  /\ Rsum (map (weight cos) band) <> 0
  /\ exists out,
       omps_area_average cos (constant_field 181 10 (Fin 2)) = Ok out
       /\ nth_error out 0 = Some (Unmasked (Fin 2)).
Proof.
  assert (Hr : nrows (constant_field 181 10 (Fin 2)) = 181%nat) by reflexivity.
  assert (Hc : (0 < ncols (constant_field 181 10 (Fin 2)))%nat)
    by (cbn [ncols constant_field]; lia).
  assert (Hk : forall i, In i band -> cell (constant_field 181 10 (Fin 2)) i 0 = Fin 2)
    by (intros i _; reflexivity).
  assert (Hd : Rsum (map (weight cos) band) <> 0).
  { pose proof exact_weights_sum_pos as Hpos. intros Hz. rewrite Hz in Hpos. lra. }
  split; [exact Hr | split; [exact Hc | split; [exact Hk | split; [exact Hd |]]]].
  exact (omps_area_average_constant cos (constant_field 181 10 (Fin 2)) 2 0 Hr Hc Hk Hd).
Defined.

(** X10.  Figure 5 turns the masked average into a plain array with
    [filled(np.nan)]: for a field with 181 latitudes the entry of a day is
    NaN when no sample of the band is finite on that day, and the finite
    weighted mean over the finite samples when the sum of their weights is
    not zero; no error is raised. *)
Theorem caliop_area_average_nan_fill (np_cos : R -> R) (caliop : ndarray2) (j : nat) :
  nrows caliop = 181%nat ->
  (j < ncols caliop)%nat ->
  exists out,
    caliop_area_average np_cos caliop = Ok out
    /\ length out = ncols caliop
    /\ (finite_rows caliop band j = [] -> nth_error out j = Some NaN)
    /\ (Rsum (map (weight np_cos) (finite_rows caliop band j)) <> 0 ->
        nth_error out j
        = Some (Fin (weighted_mean np_cos caliop (finite_rows caliop band j) j))).
Proof.
  intros HF Hj.
  destruct (omps_area_average_entry np_cos caliop j HF Hj) as (mean & Hmean & Hlen & Hnth).
  destruct (average_column_cases (fun i => cell caliop i j) (weight np_cos) band)
    as [Hnone Hsome].
  unfold caliop_area_average. rewrite Hmean. cbn [rbind].
  exists (filled NaN mean). unfold finite_rows, weighted_mean, filled.
  split; [reflexivity | split; [rewrite length_map; exact Hlen | split]].
  - intros Hempty. rewrite nth_error_map, Hnth, (Hnone Hempty). reflexivity.
  - intros Hden. rewrite nth_error_map, Hnth, (Hsome Hden). reflexivity.
Qed.

Lemma caliop_area_average_nan_fill_witness :
  nrows lone_infinity = 181%nat
  /\ (0 < ncols lone_infinity)%nat
  /\ exists out,
       caliop_area_average cos lone_infinity = Ok out
       /\ length out = ncols lone_infinity
       /\ (finite_rows lone_infinity band 0 = [] -> nth_error out 0 = Some NaN)
       /\ (Rsum (map (weight cos) (finite_rows lone_infinity band 0)) <> 0 ->
           nth_error out 0
           = Some (Fin (weighted_mean cos lone_infinity (finite_rows lone_infinity band 0) 0))).
Proof.
  assert (Hr : nrows lone_infinity = 181%nat) by reflexivity.
  assert (Hc : (0 < ncols lone_infinity)%nat) by (cbn [ncols lone_infinity]; lia).
  split; [exact Hr | split; [exact Hc |]].
  exact (caliop_area_average_nan_fill cos lone_infinity 0 Hr Hc).
Defined.

(** ** Figure7.py: the combined mask *)

Lemma has_mask_shape_inv (a : ndarray2) :
  has_mask_shape a = true -> nrows a = 181%nat /\ ncols a = 366%nat.
Proof.
  unfold has_mask_shape. intros H. apply andb_prop in H. destruct H as [Hr Hc].
  apply Nat.eqb_eq in Hr, Hc. split; assumption.
Qed.

(** X11.  With the four arrays 181 x 366, [so2_ash_masked] is returned
    without error, is 181 x 366, and every one of its cells is written: on
    the first 147 days it holds the CALIOP-limited model times the CALIOP
    mask and from day 147 on the OMPS-limited model times the OMPS mask, so
    the NaN the array is first filled with never shows through by itself. *)
Theorem so2_ash_masked_cells (d : Figure7.loaded) :
  has_mask_shape (Figure7.so2_ash_caliop d) = true ->
  has_mask_shape (Figure7.so2_ash_omps d) = true ->
  has_mask_shape (Figure7.caliop d) = true ->
  has_mask_shape (Figure7.omps d) = true ->
  exists out,
    Figure7.so2_ash_masked d = Ok out
    /\ nrows out = 181%nat /\ ncols out = 366%nat
    /\ forall i j, (j < 366)%nat ->
         cell out i j
         = if (j <? 147)%nat
           then fmul (cell (Figure7.so2_ash_caliop d) i j) (mask_value (Figure7.caliop d) i j)
           else fmul (cell (Figure7.so2_ash_omps d) i j) (mask_value (Figure7.omps d) i j).
Proof.
  intros Hac Hao Hc Ho.
  apply has_mask_shape_inv in Hac, Hao, Hc, Ho.
  destruct d as [ao ac oo oc ca om]. cbn [Figure7.so2_ash_caliop Figure7.so2_ash_omps
    Figure7.caliop Figure7.omps] in *.
  destruct ao as [r1 c1 f1], ac as [r2 c2 f2], ca as [r3 c3 f3], om as [r4 c4 f4].
  cbn [nrows ncols cell] in *.
  destruct Hac as [-> ->], Hao as [-> ->], Hc as [-> ->], Ho as [-> ->].
  assert (Hb1 : slice_bounds 366 None (Some 147%Z) = (0%nat, 147%nat)) by reflexivity.
  assert (Hb2 : slice_bounds 366 (Some 147%Z) None = (147%nat, 366%nat)) by reflexivity.
  unfold Figure7.so2_ash_masked, Figure7.calipso_mask, Figure7.omps_mask, getcols,
    setitem_cols.
  cbn [Figure7.so2_ash_caliop Figure7.so2_ash_omps Figure7.caliop Figure7.omps
       nrows ncols cell setitem_all np_zeros].
  rewrite !Hb1, !Hb2.
  change (147 - 0)%nat with 147%nat. change (366 - 147)%nat with 219%nat.
  cbn [setitem_bool2 np_isnan2 np_ones b_nrows b_ncols b_cell nrows ncols cell
       Nat.eqb andb orb rbind np_multiply2 broadcast_dim broadcast_index broadcasts_into].
  rewrite Hb2. change (366 - 147)%nat with 219%nat.
  cbn [broadcasts_into Nat.eqb orb andb].
  eexists. split; [reflexivity |].
  split; [reflexivity | split; [reflexivity |]].
  intros i j Hj. cbn [cell]. unfold mask_value. cbn [cell].
  destruct (Nat.ltb_spec j 147) as [Hlt | Hge].
  - replace (147 <=? j)%nat with false by (symmetry; apply Nat.leb_gt; exact Hlt).
    cbn [andb]. rewrite Nat.sub_0_r, Nat.add_0_l. reflexivity.
  - replace (147 <=? j)%nat with true by (symmetry; apply Nat.leb_le; exact Hge).
    replace (j <? 366)%nat with true by (symmetry; apply Nat.ltb_lt; exact Hj).
    cbn [andb]. replace (147 + (j - 147))%nat with j by lia. reflexivity.
Qed.

(** X12.  The CALIOP array needs 181 rows and at least 147 days: with fewer
    days (or another number of rows) the boolean index on the 181 x 147 mask
    raises IndexError and no masked field is built. *)
Theorem so2_ash_masked_short_caliop (d : Figure7.loaded) :
  nrows (Figure7.caliop d) <> 181%nat \/ (ncols (Figure7.caliop d) < 147)%nat ->
  Figure7.so2_ash_masked d = Raise IndexError.
Proof.
  intros Hshape.
  unfold Figure7.so2_ash_masked, Figure7.calipso_mask, setitem_bool2, getcols, slice_bounds.
  assert (Hclip : clip_index (ncols (Figure7.caliop d)) 147
                  = Nat.min 147 (ncols (Figure7.caliop d))).
  { reflexivity. }
  rewrite Hclip.
  cbn [np_isnan2 np_ones b_nrows b_ncols nrows ncols].
  rewrite Nat.sub_0_r.
  destruct (Nat.eqb_spec (nrows (Figure7.caliop d)) 181) as [Hr | Hr];
    destruct (Nat.eqb_spec (Nat.min 147 (ncols (Figure7.caliop d))) 147) as [Hc | Hc];
    cbn [andb rbind]; try reflexivity.
  exfalso. destruct Hshape as [Hbad | Hbad]; [contradiction | lia].
Qed.

Lemma so2_ash_masked_short_caliop_witness :
  (nrows (Figure7.caliop loaded_short_caliop) <> 181%nat
   \/ (ncols (Figure7.caliop loaded_short_caliop) < 147)%nat)
  /\ Figure7.so2_ash_masked loaded_short_caliop = Raise IndexError.
Proof.
  assert (H : nrows (Figure7.caliop loaded_short_caliop) <> 181%nat
              \/ (ncols (Figure7.caliop loaded_short_caliop) < 147)%nat).
  { right. cbn [ncols Figure7.caliop loaded_short_caliop constant_field]. lia. }
  split; [exact H |].
  exact (so2_ash_masked_short_caliop loaded_short_caliop H).
Defined.

Lemma so2_ash_masked_cells_witness :
  has_mask_shape (Figure7.so2_ash_caliop loaded_valid) = true
  /\ has_mask_shape (Figure7.so2_ash_omps loaded_valid) = true
  /\ has_mask_shape (Figure7.caliop loaded_valid) = true
  /\ has_mask_shape (Figure7.omps loaded_valid) = true
  /\ exists out,
       Figure7.so2_ash_masked loaded_valid = Ok out
       /\ nrows out = 181%nat /\ ncols out = 366%nat
       /\ forall i j, (j < 366)%nat ->
            cell out i j
            = if (j <? 147)%nat
              then fmul (cell (Figure7.so2_ash_caliop loaded_valid) i j)
                        (mask_value (Figure7.caliop loaded_valid) i j)
              else fmul (cell (Figure7.so2_ash_omps loaded_valid) i j)
                        (mask_value (Figure7.omps loaded_valid) i j).
Proof.
  assert (H1 : has_mask_shape (Figure7.so2_ash_caliop loaded_valid) = true) by reflexivity.
  assert (H2 : has_mask_shape (Figure7.so2_ash_omps loaded_valid) = true) by reflexivity.
  assert (H3 : has_mask_shape (Figure7.caliop loaded_valid) = true) by reflexivity.
  assert (H4 : has_mask_shape (Figure7.omps loaded_valid) = true) by reflexivity.
  split; [exact H1 | split; [exact H2 | split; [exact H3 | split; [exact H4 |]]]].
  exact (so2_ash_masked_cells loaded_valid H1 H2 H3 H4).
Defined.

(** ** Figure3.py: the zonal mean and the average built on it *)

Lemma fsum_replace_nan (l : list float64) :
  forall rs, filter (fun x => negb (isnan x)) l = map Fin rs ->
    fsum (map replace_nan l) = Fin (Rsum rs).
Proof.
  unfold fsum, Rsum.
  induction l as [| x l IH]; intros rs Hrs; cbn [filter map fold_right] in *.
  - destruct rs; [reflexivity | discriminate].
  - destruct x as [| | | a]; cbn [isnan negb replace_nan] in *.
    + rewrite (IH rs Hrs). cbn [fadd]. rewrite Rplus_0_l. reflexivity.
    + destruct rs; discriminate.
    + destruct rs; discriminate.
    + destruct rs as [| r rs]; [discriminate |].
      injection Hrs as -> Hrest. rewrite (IH rs Hrest). reflexivity.
Qed.


Lemma nanmean_some (l : list float64) (rs : list R) :
  filter (fun x => negb (isnan x)) l = map Fin rs ->
  rs <> [] ->
  nanmean l = Fin (Rsum rs / INR (length rs)).
Proof.
  intros Hrs Hne.
  assert (Hn : 0 < INR (length rs)).
  { apply lt_0_INR. destruct rs; [congruence | cbn; lia]. }
  unfold nanmean, count_not_nan.
  rewrite (fsum_replace_nan l rs Hrs), Hrs, length_map. cbn [fdiv].
  replace (Reqb (INR (length rs)) 0) with false by (symmetry; apply Reqb_false; lra).
  reflexivity.
Qed.

Lemma nanmean_none (l : list float64) :
  filter (fun x => negb (isnan x)) l = [] -> nanmean l = NaN.
Proof.
  intros Hnone. unfold nanmean, count_not_nan.
  rewrite (fsum_replace_nan l [] Hnone), Hnone. cbn [length INR Rsum fold_right fdiv].
  replace (Reqb 0 0) with true by (symmetry; apply Reqb_true; reflexivity).
  unfold inf_times.
  replace (Rltb 0 0) with false by (symmetry; apply Rltb_false; lra).
  reflexivity.
Qed.



Lemma not_nan_values (l : list float64) :
  Forall (fun x => isnan x = true \/ isfinite x = true) l ->
  exists rs, filter (fun x => negb (isnan x)) l = map Fin rs.
Proof.
  induction l as [| x l IH]; intros Hall.
  - exists []. reflexivity.
  - inversion Hall as [| ? ? Hx Hrest]; subst.
    destruct (IH Hrest) as (rs & Hrs).
    destruct x as [| | | a]; cbn [filter isnan negb];
      try (destruct Hx as [Hx | Hx]; discriminate).
    + exists rs. exact Hrs.
    + exists (a :: rs). cbn [map]. rewrite Hrs. reflexivity.
Qed.

Lemma existsb_filter {A : Type} (p : A -> bool) (l : list A) :
  existsb p l = match filter p l with [] => false | _ => true end.
Proof.
  induction l as [| x l IH]; cbn [existsb filter]; [reflexivity |].
  destruct (p x); [reflexivity | exact IH].
Qed.

Lemma isfinite_nanmean (l : list float64) :
  Forall (fun x => isnan x = true \/ isfinite x = true) l ->
  isfinite (nanmean l) = existsb (fun x => negb (isnan x)) l.
Proof.
  intros Hall. destruct (not_nan_values l Hall) as (rs & Hrs).
  rewrite existsb_filter, Hrs.
  destruct rs as [| r rs].
  - rewrite (nanmean_none l Hrs). reflexivity.
  - rewrite (nanmean_some l (r :: rs) Hrs) by discriminate. reflexivity.
Qed.

(** The entry of the average restricted to rows that satisfy [p], which
    decides the finiteness of the column on the rows. *)
Lemma finite_rows_in (f : nat -> float64) (p : nat -> bool) (rows : list nat) :
  (forall i, In i rows -> isfinite (f i) = p i) ->
  filter (fun i => isfinite (f i)) rows = filter p rows.
Proof.
  intros H. apply filter_ext_in. exact H.
Qed.

(** X14.  Figure 3 averages the zonal mean.  For observations on 181
    latitudes whose samples are NaN or finite, a latitude of the band enters
    the average of day [k] exactly when at least one of its longitudes is not
    NaN on that day, and a day on which every longitude of every band
    latitude is NaN gives a masked entry, not an error. *)
Theorem omps_area_average_of_zonal_mean (np_cos : R -> R) (omps : ndarray3) (k : nat) :
  dim0 omps = 181%nat ->
  (k < dim2 omps)%nat ->
  (forall i, In i band ->
     Forall (fun x => isnan x = true \/ isfinite x = true) (longitudes omps i k)) ->
  exists out,
    omps_area_average np_cos (omps_lon_averaged omps) = Ok out
    /\ length out = dim2 omps
    /\ finite_rows (omps_lon_averaged omps) band k
       = filter (fun i => existsb (fun x => negb (isnan x)) (longitudes omps i k)) band
    /\ (filter (fun i => existsb (fun x => negb (isnan x)) (longitudes omps i k)) band = [] ->
        nth_error out k = Some Masked).
Proof.
  intros H0 Hk Hall.
  destruct (omps_area_average_entry np_cos (omps_lon_averaged omps) k H0 Hk)
    as (out & Hout & Hlen & Hnth).
  destruct (average_column_cases (fun i => cell (omps_lon_averaged omps) i k)
              (weight np_cos) band) as [Hnone _].
  assert (Hrows : filter (fun i => isfinite (cell (omps_lon_averaged omps) i k)) band
                  = filter (fun i => existsb (fun x => negb (isnan x)) (longitudes omps i k))
                      band).
  { apply finite_rows_in. intros i Hi.
    unfold omps_lon_averaged, np_nanmean_axis1. cbn [cell].
    fold (longitudes omps i k). apply isfinite_nanmean. apply Hall. exact Hi. }
  exists out. unfold finite_rows.
  split; [exact Hout | split; [exact Hlen | split; [exact Hrows |]]].
  intros Hempty. rewrite Hnth. f_equal. apply Hnone. rewrite Hrows. exact Hempty.
Qed.

Lemma omps_area_average_of_zonal_mean_witness :
  dim0 sparse_observations = 181%nat
  /\ (0 < dim2 sparse_observations)%nat
  /\ (forall i, In i band ->
        Forall (fun x => isnan x = true \/ isfinite x = true)
          (longitudes sparse_observations i 0))
  /\ exists out,
       omps_area_average cos (omps_lon_averaged sparse_observations) = Ok out
       /\ length out = dim2 sparse_observations
       /\ finite_rows (omps_lon_averaged sparse_observations) band 0
          = filter (fun i => existsb (fun x => negb (isnan x))
                               (longitudes sparse_observations i 0)) band
       /\ (filter (fun i => existsb (fun x => negb (isnan x))
                              (longitudes sparse_observations i 0)) band = [] ->
           nth_error out 0 = Some Masked).
Proof.
  assert (H0 : dim0 sparse_observations = 181%nat) by reflexivity.
  assert (Hk : (0 < dim2 sparse_observations)%nat)
    by (cbn [dim2 sparse_observations]; lia).
  assert (Hall : forall i, In i band ->
            Forall (fun x => isnan x = true \/ isfinite x = true)
              (longitudes sparse_observations i 0)).
  { intros i _. unfold longitudes.
    cbn [map seq dim1 cell3 sparse_observations Nat.eqb].
    constructor; [left; reflexivity |].
    constructor; [| constructor].
    destruct (i =? 120)%nat; [right | left]; reflexivity. }
  split; [exact H0 | split; [exact Hk | split; [exact Hall |]]].
  exact (omps_area_average_of_zonal_mean cos sparse_observations 0 H0 Hk Hall).
Defined.

(** ** Figure8.py: the Angstrom exponent *)

Lemma ln_ratio (a b : R) : 0 < a -> 0 < b -> ln (a / b) = ln a - ln b.
Proof.
  intros Ha Hb. unfold Rdiv.
  rewrite ln_mult by (try apply Rinv_0_lt_compat; assumption).
  rewrite ln_Rinv by exact Hb. lra.
Qed.

Lemma ratio_pos (a b : R) : 0 < a -> 0 < b -> 0 < a / b.
Proof.
  intros Ha Hb. apply Rdiv_lt_0_compat; assumption.
Qed.

(** The exponent of two positive optical depths. *)
Lemma angstrom_positive (wl_1 wl_2 a b : R) :
  0 < wl_1 -> 0 < wl_2 -> wl_1 <> wl_2 -> 0 < a -> 0 < b ->
  angstrom wl_1 wl_2 (Unmasked (Fin a)) (Unmasked (Fin b))
  = Unmasked (Fin (- ln (a / b) / ln (wl_1 / wl_2))).
Proof.
  intros H1 H2 Hne Ha Hb.
  assert (Hl : ln (wl_1 / wl_2) <> 0).
  { apply ln_neq_0; [| apply ratio_pos; assumption].
    intros Heq. apply Hne.
    replace wl_1 with (wl_1 / wl_2 * wl_2) by (field; lra). rewrite Heq. lra. }
  unfold angstrom. cbn [ma_true_divide fdiv].
  replace (Reqb b 0) with false by (symmetry; apply Reqb_false; lra).
  cbn [isfinite ma_log].
  replace (Rltb 0 (a / b)) with true
    by (symmetry; apply Rltb_true; apply ratio_pos; assumption).
  cbn [ma_negative fneg ma_true_divide fdiv].
  replace (Reqb (ln (wl_1 / wl_2)) 0) with false by (symmetry; apply Reqb_false; exact Hl).
  reflexivity.
Qed.

Lemma angstrom_power_law (wl_1 wl_2 c alpha : R) :
  0 < wl_1 -> 0 < wl_2 -> wl_1 <> wl_2 -> 0 < c ->
  angstrom wl_1 wl_2 (Unmasked (Fin (c * Rpower wl_1 (- alpha))))
                     (Unmasked (Fin (c * Rpower wl_2 (- alpha))))
  = Unmasked (Fin alpha).
Proof.
  intros H1 H2 Hne Hc.
  assert (Hp1 : 0 < Rpower wl_1 (- alpha)) by (unfold Rpower; apply exp_pos).
  assert (Hp2 : 0 < Rpower wl_2 (- alpha)) by (unfold Rpower; apply exp_pos).
  assert (Ha : 0 < c * Rpower wl_1 (- alpha)) by (apply Rmult_lt_0_compat; assumption).
  assert (Hb : 0 < c * Rpower wl_2 (- alpha)) by (apply Rmult_lt_0_compat; assumption).
  rewrite (angstrom_positive wl_1 wl_2 _ _ H1 H2 Hne Ha Hb).
  assert (Hl : ln wl_1 - ln wl_2 <> 0).
  { intros Heq. apply Hne. apply ln_inv; try assumption. lra. }
  do 2 f_equal.
  rewrite (ln_ratio _ _ Ha Hb), (ln_ratio _ _ H1 H2).
  rewrite !ln_mult, !ln_Rpower by assumption.
  field. exact Hl.
Qed.

(** X15.  The Angstrom exponent recovers the exponent of a power law: when
    the two optical depths follow [c * wavelength ^ (- alpha)] with [c > 0],
    the entry is [alpha], for the model fields (510 and 865 nm) and for the
    observations (510 and 869 nm) alike.  Arithmetic is exact. *)
Theorem AE_recovers_power_law (c alpha : R) :
  0 < c ->
  AE_so2_only (Unmasked (Fin (c * Rpower 510 (- alpha))))
              (Unmasked (Fin (c * Rpower 865 (- alpha)))) = Unmasked (Fin alpha)
  /\ AE_so2_ash (Unmasked (Fin (c * Rpower 510 (- alpha))))
                (Unmasked (Fin (c * Rpower 865 (- alpha)))) = Unmasked (Fin alpha)
  /\ AE_omps (Unmasked (Fin (c * Rpower 510 (- alpha))))
             (Unmasked (Fin (c * Rpower 869 (- alpha)))) = Unmasked (Fin alpha).
Proof.
  intros Hc. unfold AE_so2_only, AE_so2_ash, AE_omps.
  repeat split; apply angstrom_power_law; lra.
Qed.

Lemma AE_recovers_power_law_witness :
  0 < 2
  /\ AE_so2_only (Unmasked (Fin (2 * Rpower 510 (- 1))))
                 (Unmasked (Fin (2 * Rpower 865 (- 1)))) = Unmasked (Fin 1)
  /\ AE_so2_ash (Unmasked (Fin (2 * Rpower 510 (- 1))))
                (Unmasked (Fin (2 * Rpower 865 (- 1)))) = Unmasked (Fin 1)
  /\ AE_omps (Unmasked (Fin (2 * Rpower 510 (- 1))))
             (Unmasked (Fin (2 * Rpower 869 (- 1)))) = Unmasked (Fin 1).
Proof.
  assert (Hc : 0 < 2) by lra.
  split; [exact Hc |].
  exact (AE_recovers_power_law 2 1 Hc).
Defined.

(** X16.  For two positive optical depths the exponent of the model fields
    is an unmasked finite value, positive exactly when the 510 nm optical
    depth is the larger one and zero exactly when the two are equal. *)
Theorem AE_sign (a b : R) :
  0 < a -> 0 < b ->
  exists v, AE_so2_only (Unmasked (Fin a)) (Unmasked (Fin b)) = Unmasked (Fin v)
    /\ (0 < v <-> b < a)
    /\ (v = 0 <-> a = b).
Proof.
  intros Ha Hb. unfold AE_so2_only.
  rewrite (angstrom_positive 510 865 a b) by lra.
  eexists. split; [reflexivity |].
  assert (Hl : ln (510 / 865) < 0).
  { rewrite <- ln_1. apply ln_increasing; lra. }
  rewrite (ln_ratio a b Ha Hb).
  assert (Hinv : / ln (510 / 865) < 0) by (apply Rinv_lt_0_compat; exact Hl).
  unfold Rdiv at 1 3. split; split.
  - intros Hv. apply ln_lt_inv; try assumption. nra.
  - intros Hlt. apply (ln_increasing b a Hb) in Hlt. nra.
  - intros Hv. apply ln_inv; try assumption. nra.
  - intros ->. lra.
Qed.

Lemma AE_sign_witness :
  0 < 3 /\ 0 < 2
  /\ exists v, AE_so2_only (Unmasked (Fin 3)) (Unmasked (Fin 2)) = Unmasked (Fin v)
       /\ (0 < v <-> 2 < 3)
       /\ (v = 0 <-> 3 = 2).
Proof.
  assert (Ha : 0 < 3) by lra. assert (Hb : 0 < 2) by lra.
  split; [exact Ha | split; [exact Hb |]].
  exact (AE_sign 3 2 Ha Hb).
Defined.

(** X17.  The exponent is masked, and nothing is raised, when one of the two
    averages is masked, and when their product is not positive: a zero
    denominator, a zero numerator, or optical depths of opposite signs, as
    perturbations can have. *)
Theorem AE_masked (a b : R) :
  (forall x, AE_so2_only Masked x = Masked /\ AE_so2_only x Masked = Masked)
  /\ (a * b <= 0 -> AE_so2_only (Unmasked (Fin a)) (Unmasked (Fin b)) = Masked).
Proof.
  unfold AE_so2_only, angstrom. split.
  - intros x. split; [reflexivity |]. destruct x; reflexivity.
  - intros Hab. cbn [ma_true_divide fdiv].
    destruct (Reqb b 0) eqn:Hb0.
    + unfold inf_times. destruct (Rltb 0 a); [reflexivity |].
      destruct (Rltb a 0); reflexivity.
    + apply Reqb_false in Hb0. cbn [isfinite ma_log].
      replace (Rltb 0 (a / b)) with false; [reflexivity |].
      symmetry. apply Rltb_false.
      assert (Hsq : 0 < b * b) by nra.
      replace (a / b) with (a * b / (b * b)) by (field; exact Hb0).
      apply Rmult_le_reg_r with (b * b); [exact Hsq |].
      unfold Rdiv. rewrite Rmult_assoc, Rinv_l by lra. lra.
Qed.

Lemma AE_masked_witness :
  -1 * 2 <= 0
  /\ AE_so2_only (Unmasked (Fin (-1))) (Unmasked (Fin 2)) = Masked.
Proof.
  assert (H : -1 * 2 <= 0) by lra.
  split; [exact H |].
  exact (proj2 (AE_masked (-1) 2) H).
Defined.

(** ** Figure3.py: exponential decays *)

Lemma exp_decay_decreasing (A : R) (T s t : nat) :
  0 < A -> (0 < T)%nat -> (s < t)%nat -> exp_decay A T t < exp_decay A T s.
Proof.
  intros HA HT Hst. unfold exp_decay.
  apply Rmult_lt_compat_l; [exact HA |].
  apply exp_increasing.
  apply lt_INR in Hst. apply lt_0_INR in HT.
  unfold Rdiv. rewrite <- !Ropp_mult_distr_l. apply Ropp_lt_contravar.
  apply Rmult_lt_compat_r; [apply Rinv_0_lt_compat; exact HT | exact Hst].
Qed.

Lemma exp_decay_e_fold (A : R) (T t : nat) :
  (0 < T)%nat -> exp_decay A T t / math_e = exp_decay A T (t + T).
Proof.
  intros HT. apply lt_0_INR in HT. unfold exp_decay, math_e.
  replace (- INR (t + T) / INR T) with (- INR t / INR T + - (1))
    by (rewrite plus_INR; field; lra).
  rewrite exp_plus, exp_Ropp. pose proof (exp_pos 1). field. lra.
Qed.

Lemma exp_decay_segment (A : R) (T first n : nat) :
  nan_to_zero (exp_decay_curve A T first n) = map Fin (map (exp_decay A T) (seq first n)).
Proof.
  unfold exp_decay_curve. rewrite <- (map_map (exp_decay A T) Fin). apply nan_to_zero_fin.
Qed.

Lemma nth_exp_decay (A : R) (T first n j : nat) :
  (j < n)%nat -> nth j (map (exp_decay A T) (seq first n)) 0 = exp_decay A T (first + j).
Proof.
  intros Hj. rewrite (nth_map_lt (exp_decay A T) _ _ O) by (rewrite length_seq; exact Hj).
  rewrite seq_nth by exact Hj. reflexivity.
Qed.

Lemma exp_decay_first_max (A : R) (T first n : nat) :
  0 < A -> (0 < T)%nat -> (0 < n)%nat ->
  is_first_max (map (exp_decay A T) (seq first n)) 0.
Proof.
  intros HA HT Hn.
  split; [rewrite length_map, length_seq; exact Hn | split].
  - rewrite length_map, length_seq. intros j Hj.
    rewrite !nth_exp_decay by lia. rewrite Nat.add_0_r.
    destruct j as [| j]; [rewrite Nat.add_0_r; lra |].
    apply Rlt_le, exp_decay_decreasing; try assumption. lia.
  - intros j Hj. lia.
Qed.

(** X18.  On an exponential decay [A * exp(-t/T)] with [A > 0] and an integer
    time constant [T >= 1], sampled daily, [e_folding_time] returns exactly
    [T] as soon as the samples from index 20 on reach day [20 + T] (exact
    arithmetic). *)
Theorem e_folding_time_of_exp_decay (h : heap) (data : ndarray) (A : R) (T n : nat) :
  valid h data ->
  0 < A ->
  (0 < T < n)%nat ->
  skipn 20 (contents h data) = exp_decay_curve A T 20 n ->
  fst (e_folding_time data h) = Ok (Z.of_nat T).
Proof.
  intros Hv HA [HT HTn] Hcurve.
  rewrite (e_folding_time_run h data Hv), Hcurve. cbn [fst].
  rewrite (estimate_on_segment_fin _ (map (exp_decay A T) (seq 20 n)) 0 T).
  - f_equal. lia.
  - apply exp_decay_segment.
  - apply exp_decay_first_max; [exact HA | exact HT | lia].
  - rewrite (nth_exp_decay A T 20 n 0) by lia. rewrite Nat.add_0_r, exp_decay_e_fold by exact HT.
    split; [rewrite length_map, length_seq; lia | split].
    + rewrite length_map, length_seq. intros j Hj.
      rewrite !nth_exp_decay by lia. rewrite Rminus_diag, Rabs_R0. apply Rabs_pos.
    + intros j Hj. rewrite !nth_exp_decay by lia.
      rewrite Rminus_diag, Rabs_R0. apply Rabs_pos_lt.
      assert (Hlt : exp_decay A T (20 + T) < exp_decay A T (20 + j))
        by (apply exp_decay_decreasing; try assumption; lia).
      lra.
Qed.

Lemma e_folding_time_of_exp_decay_witness :
  valid [repeat NaN 20 ++ exp_decay_curve 7 3 20 10] (whole 30)
  /\ 0 < 7
  /\ (0 < 3 < 10)%nat
  /\ skipn 20 (contents [repeat NaN 20 ++ exp_decay_curve 7 3 20 10] (whole 30))
     = exp_decay_curve 7 3 20 10
  /\ fst (e_folding_time (whole 30) [repeat NaN 20 ++ exp_decay_curve 7 3 20 10])
     = Ok (Z.of_nat 3).
Proof.
  assert (Hv : valid [repeat NaN 20 ++ exp_decay_curve 7 3 20 10] (whole 30))
    by (unfold valid; cbn; lia).
  assert (HA : 0 < 7) by lra.
  assert (HT : (0 < 3 < 10)%nat) by lia.
  assert (Hc : skipn 20 (contents [repeat NaN 20 ++ exp_decay_curve 7 3 20 10] (whole 30))
               = exp_decay_curve 7 3 20 10) by reflexivity.
  split; [exact Hv | split; [exact HA | split; [exact HT | split; [exact Hc |]]]].
  exact (e_folding_time_of_exp_decay _ (whole 30) 7 3 10 Hv HA HT Hc).
Defined.

(** X19.  When the series ends before the decay has reached [max / e]
    (at most [T] samples from index 20 on), [e_folding_time] returns the
    offset of the last sample: the search takes the nearest value, it does
    not wait for the curve to cross [max / e]. *)
Theorem e_folding_time_of_truncated_decay
    (h : heap) (data : ndarray) (A : R) (T n : nat) :
  valid h data ->
  0 < A ->
  (0 < n <= T)%nat ->
  skipn 20 (contents h data) = exp_decay_curve A T 20 n ->
  fst (e_folding_time data h) = Ok (Z.of_nat (n - 1)).
Proof.
  intros Hv HA [Hn HnT] Hcurve.
  assert (HT : (0 < T)%nat) by lia.
  rewrite (e_folding_time_run h data Hv), Hcurve. cbn [fst].
  rewrite (estimate_on_segment_fin _ (map (exp_decay A T) (seq 20 n)) 0 (n - 1)).
  - f_equal. lia.
  - apply exp_decay_segment.
  - apply exp_decay_first_max; assumption.
  - rewrite (nth_exp_decay A T 20 n 0) by lia. rewrite Nat.add_0_r, exp_decay_e_fold by exact HT.
    assert (Habove : forall j, (j < n)%nat ->
              exp_decay A T (20 + T) < exp_decay A T (20 + j)).
    { intros j Hj. apply exp_decay_decreasing; try assumption. lia. }
    split; [rewrite length_map, length_seq; lia | split].
    + rewrite length_map, length_seq. intros j Hj.
      rewrite !nth_exp_decay by lia.
      pose proof (Habove j ltac:(lia)) as H1. pose proof (Habove (n - 1)%nat ltac:(lia)) as H2.
      rewrite !Rabs_right by lra.
      destruct (Nat.eq_dec j (n - 1)) as [-> | Hne]; [lra |].
      assert (exp_decay A T (20 + (n - 1)) < exp_decay A T (20 + j))
        by (apply exp_decay_decreasing; try assumption; lia).
      lra.
    + intros j Hj. rewrite !nth_exp_decay by lia.
      pose proof (Habove j ltac:(lia)) as H1. pose proof (Habove (n - 1)%nat ltac:(lia)) as H2.
      rewrite !Rabs_right by lra.
      assert (exp_decay A T (20 + (n - 1)) < exp_decay A T (20 + j))
        by (apply exp_decay_decreasing; try assumption; lia).
      lra.
Qed.

Lemma e_folding_time_of_truncated_decay_witness :
  valid [repeat NaN 20 ++ exp_decay_curve 7 30 20 4] (whole 24)
  /\ 0 < 7
  /\ (0 < 4 <= 30)%nat
  /\ skipn 20 (contents [repeat NaN 20 ++ exp_decay_curve 7 30 20 4] (whole 24))
     = exp_decay_curve 7 30 20 4
  /\ fst (e_folding_time (whole 24) [repeat NaN 20 ++ exp_decay_curve 7 30 20 4])
     = Ok (Z.of_nat (4 - 1)).
Proof.
  assert (Hv : valid [repeat NaN 20 ++ exp_decay_curve 7 30 20 4] (whole 24))
    by (unfold valid; cbn; lia).
  assert (HA : 0 < 7) by lra.
  assert (HT : (0 < 4 <= 30)%nat) by lia.
  assert (Hc : skipn 20 (contents [repeat NaN 20 ++ exp_decay_curve 7 30 20 4] (whole 24))
               = exp_decay_curve 7 30 20 4) by reflexivity.
  split; [exact Hv | split; [exact HA | split; [exact HT | split; [exact Hc |]]]].
  exact (e_folding_time_of_truncated_decay _ (whole 24) 7 30 4 Hv HA HT Hc).
Defined.
